(** * admin-user-audit: cross-referencing Clerk users with D1 database users

    A shallow embedding of [scripts/admin-user-audit.py] and the properties
    of its environment loader, identity client, query runner and report.

    Conventions of the embedding.
    - A Python [str] is a Rocq [string], one character per code point
      (code points below 256).  Python compares strings code point by code
      point, which is [String.compare] on the character codes.
    - A Python [int] is a [Z]; [len] is a [nat].
    - [os.environ] is a finite map from names to values.  Storing into it
      raises [ValueError] when the name or the value holds a NUL character
      or the name holds [=], and [OSError] when the name is empty, as
      [os.putenv] does on a POSIX system.
    - [datetime.fromtimestamp] raises on a time stamp outside its range, so
      the conversion of a time stamp gives a text or an exception.
    - A Python [set] of strings is a [gset string] together with an
      iteration function that lists its elements once each in an order the
      script does not control (string hashing is seeded per process).
    - What the script prints is the list of the arguments of its [print]
      calls; the text on the console ends each of them with a newline. *)

From Stdlib Require Import ZArith Ascii DecimalString.
From stdpp Require Import gmap strings list sorting.

Local Open Scope Z_scope.

(** ** Python string primitives used by the script *)

Module PyStr.

Definition code (c : ascii) : N := N_of_ascii c.

(** [str.isspace] on one character: the characters [str.strip()] removes. *)
Definition isspace (c : ascii) : bool :=
  let n := code c in
  ((9 <=? n) && (n <=? 13) || (28 <=? n) && (n <=? 31)
   || (n =? 32) || (n =? 133) || (n =? 160))%N.

(** The line boundaries of [str.splitlines]. *)
Definition islinebreak (c : ascii) : bool :=
  let n := code c in
  ((10 <=? n) && (n <=? 13) || (28 <=? n) && (n <=? 30) || (n =? 133))%N.

Fixpoint lstrip_with (p : ascii → bool) (s : string) : string :=
  match s with
  | EmptyString => EmptyString
  | String c s' => if p c then lstrip_with p s' else s
  end.

Fixpoint rstrip_with (p : ascii → bool) (s : string) : string :=
  match s with
  | EmptyString => EmptyString
  | String c s' =>
      match rstrip_with p s' with
      | EmptyString => if p c then EmptyString else String c EmptyString
      | String d t => String c (String d t)
      end
  end.

Definition strip_with (p : ascii → bool) (s : string) : string :=
  rstrip_with p (lstrip_with p s).

(** [s.strip()] *)
Definition strip : string → string := strip_with isspace.

Fixpoint mem (c : ascii) (chars : string) : bool :=
  match chars with
  | EmptyString => false
  | String d chars' => if Ascii.eqb c d then true else mem c chars'
  end.

(** [s.strip(chars)]: every leading and trailing character that occurs in
    [chars] is removed. *)
Definition strip_chars (chars : string) : string → string :=
  strip_with (λ c, mem c chars).

(** Every character of [s] satisfies [p]. *)
Fixpoint all_chars (p : ascii → bool) (s : string) : bool :=
  match s with
  | EmptyString => true
  | String c s' => p c && all_chars p s'
  end.

Definition first_char (s : string) : option ascii :=
  match s with EmptyString => None | String c _ => Some c end.

Fixpoint last_char (s : string) : option ascii :=
  match s with
  | EmptyString => None
  | String c EmptyString => Some c
  | String _ s' => last_char s'
  end.

(** An end of a string, if there is one, does not satisfy [p]. *)
Definition clean_end (p : ascii → bool) (o : option ascii) : bool :=
  match o with Some c => negb (p c) | None => true end.

(** [t] is [s] without its leading and trailing characters that satisfy
    [p]. *)
Definition stripped (p : ascii → bool) (s t : string) : Prop :=
  ∃ l r, s = l +:+ t +:+ r
         ∧ all_chars p l = true ∧ all_chars p r = true
         ∧ clean_end p (first_char t) = true
         ∧ clean_end p (last_char t) = true.

(** [s.startswith(prefix)] *)
Definition startswith (s prefix : string) : bool := String.prefix prefix s.

(** [s.partition(sep)] for a separator of one character. *)
Fixpoint partition (sep : ascii) (s : string) : string * string * string :=
  match s with
  | EmptyString => (EmptyString, EmptyString, EmptyString)
  | String c s' =>
      if Ascii.eqb c sep then (EmptyString, String sep EmptyString, s')
      else let '(before, found, after) := partition sep s' in
           (String c before, found, after)
  end.

(** [s.splitlines()]: [cur] holds the current line, reversed. *)
Fixpoint splitlines_go (cur : string) (s : string) : list string :=
  match s with
  | EmptyString =>
      match cur with EmptyString => [] | _ => [String.rev cur] end
  | String c s' =>
      if Ascii.eqb c "013" then
        match s' with
        | String d s'' =>
            if Ascii.eqb d "010"
            then String.rev cur :: splitlines_go EmptyString s''
            else String.rev cur :: splitlines_go EmptyString s'
        | EmptyString => [String.rev cur]
        end
      else if islinebreak c then String.rev cur :: splitlines_go EmptyString s'
      else splitlines_go (String c cur) s'
  end.

Definition splitlines : string → list string := splitlines_go EmptyString.

Definition spaces (n : nat) : string :=
  String.string_of_list_ascii (replicate n " "%char).

(** [format(s, "<w")] and [format(s, ">w")]: pad, never truncate. *)
Definition ljust (w : nat) (s : string) : string :=
  s +:+ spaces (w - String.length s).
Definition rjust (w : nat) (s : string) : string :=
  spaces (w - String.length s) +:+ s.

(** [str(n)] for an integer. *)
Definition str_int (z : Z) : string := NilZero.string_of_int (Z.to_int z).
Definition str_len (n : nat) : string := str_int (Z.of_nat n).

(** [c * n] for a one-character string. *)
Definition times (c : ascii) (n : nat) : string :=
  String.string_of_list_ascii (replicate n c).

End PyStr.

(** ** Outcomes of a call *)

Inductive exn : Type :=
  | AttributeError
  | KeyError
  | StopIteration
  | JSONDecodeError
  | ValueError
  | OSError
  | OverflowError.

(** A call returns, leaves the process through [sys.exit] after a message on
    the error stream, or raises an exception nothing catches. *)
Inductive outcome (A : Type) : Type :=
  | Return (a : A)
  | Exit (message : string) (code : Z)
  | Raise (e : exn).
Arguments Return {A} a.
Arguments Exit {A} message code.
Arguments Raise {A} e.

(** ** Environment loader *)

Definition quote_chars : string :=
  String "'"%char (String "034"%char EmptyString).

Definition is_quote (c : ascii) : bool := PyStr.mem c quote_chars.

(** The body of the [for] loop of [load_env] on one line of the file: [None]
    when the line is passed over ([continue]), otherwise the name and the
    value it stores. *)
Definition parse_env_line (line : string) : option (string * string) :=
  let line := PyStr.strip line in
  if bool_decide (line = EmptyString) || PyStr.startswith line "#" then None
  else
    let '(key, _, value) := PyStr.partition "="%char line in
    let value := PyStr.strip_chars quote_chars (PyStr.strip value) in
    Some (PyStr.strip key, value).

(** The character NUL. *)
Definition NUL : ascii := "000"%char.

(** [os.environ[key] = value]: the name and the value are handed to the
    platform, which refuses a NUL in either and a [=] in the name with
    [ValueError] and an empty name with [OSError]; only then the mapping is
    updated. *)
Definition environ_set (environ : gmap string string) (key value : string)
  : exn + gmap string string :=
  if PyStr.mem NUL key || PyStr.mem NUL value || PyStr.mem "="%char key
  then inl ValueError
  else if bool_decide (key = EmptyString) then inl OSError
  else inr (<[key := value]> environ).

Definition load_env_line (environ : gmap string string) (line : string)
  : exn + gmap string string :=
  match parse_env_line line with
  | None => inr environ
  | Some (key, value) => environ_set environ key value
  end.

(** The [for] loop of [load_env]: it ends at the first line whose store
    raises. *)
Fixpoint load_env_lines (lines : list string) (environ : gmap string string)
  : exn + gmap string string :=
  match lines with
  | [] => inr environ
  | line :: rest =>
      match load_env_line environ line with
      | inl e => inl e
      | inr environ' => load_env_lines rest environ'
      end
  end.

(** [env_path] is the path of [.env.production.local] under the project root
    and [env_file] the text of that file, [None] when it does not exist. *)
Definition load_env (env_path : string) (env_file : option string)
    (environ : gmap string string) : outcome (gmap string string) :=
  match env_file with
  | None => Exit ("Error: " +:+ env_path +:+ " not found") 1
  | Some text =>
      match load_env_lines (PyStr.splitlines text) environ with
      | inl e => Raise e
      | inr environ' => Return environ'
      end
  end.

(** [k] and [v] are what stands before and after the first [=] of [line];
    [k] is all of [line] and [v] is empty when [line] has no [=]. *)
Definition splits_at_first_equals (line k v : string) : Prop :=
  (line = k +:+ String "="%char v ∧ PyStr.mem "="%char k = false)
  ∨ (PyStr.mem "="%char line = false ∧ k = line ∧ v = EmptyString).

(** [s] without its last character. *)
Fixpoint remove_last (s : string) : string :=
  match s with
  | EmptyString => EmptyString
  | String _ EmptyString => EmptyString
  | String c s' => String c (remove_last s')
  end.

(** The quote rule as the specification words it, to compare [load_env]
    with: a value that begins and ends with the same quote character loses
    that one pair; any other value is kept as it is. *)
Definition unquote_matching_pair (value : string) : string :=
  match value with
  | String q rest =>
      if is_quote q && bool_decide (PyStr.last_char rest = Some q)
      then remove_last rest else value
  | EmptyString => EmptyString
  end.

(** ** Decoded JSON values, as [json.loads] returns them *)

#[warning="-register-all"]
Inductive json : Type :=
  | JNull
  | JBool (b : bool)
  | JInt (z : Z)
  | JFloat (literal : string)
  | JStr (s : string)
  | JList (items : list json)
  | JDict (members : list (string * json)).

(** [d.get(key, default)] on a decoded object whose members are listed in
    document order: [json.loads] keeps the last of several members with one
    name. *)
Fixpoint dict_get (members : list (string * json)) (key : string)
    (default : json) : json :=
  match members with
  | [] => default
  | (k, v) :: rest =>
      if bool_decide (k = key) then dict_get rest key v
      else dict_get rest key default
  end.

Definition has_key (members : list (string * json)) (key : string) : bool :=
  bool_decide (key ∈ members.*1).

(** ** Database query runner *)

Record completed_process : Type := {
  returncode : Z;
  stdout : string;
  stderr : string
}.

Definition newline : string := String "010"%char EmptyString.

(** [find_wrangler]: [local] is the path [node_modules/.bin/wrangler] under
    the project root and [local_exists] whether it exists. *)
Definition find_wrangler (environ : gmap string string) (local : string)
    (local_exists : bool) : string :=
  match environ !! "WRANGLER_BIN" with
  | Some (String c s) => String c s
  | _ => if local_exists then local else "wrangler"
  end.

(** The last three lines of [query_d1], on the decoded output [data]. *)
Definition query_d1_rows (data : json) : outcome json :=
  match data with
  | JList (first :: _) =>
      match first with
      | JDict members => Return (dict_get members "results" (JList []))
      | _ => Raise AttributeError
      end
  | _ => Return (JList [])
  end.

(** The shape the script expects of the decoded output: a list whose first
    element is an object with a [results] member. *)
Definition expected_shape (data : json) : bool :=
  match data with
  | JList (JDict members :: _) => has_key members "results"
  | _ => false
  end.

Section QueryD1.
(** [subprocess.run] on an argument vector, and [json.loads] ([None] when
    it raises). *)
Variable run : list string → completed_process.
Variable json_loads : string → option json.

Definition query_d1 (wrangler DB_NAME sql : string) : outcome json :=
  let result :=
    run [wrangler; "d1"; "execute"; DB_NAME; "--remote"; "--json";
         "--command"; sql] in
  if bool_decide (returncode result ≠ 0) then
    Exit ("wrangler error:" +:+ newline +:+ stderr result) 1
  else
    match json_loads (stdout result) with
    | None => Raise JSONDecodeError
    | Some data => query_d1_rows data
    end.
End QueryD1.

(** ** Identity client *)

(** A user object of the Clerk API, with the fields the script reads; a
    field the script reads with [get] may be missing. *)
Record EmailAddress : Type := {
  email_address : option string
}.

Record ClerkApiUser : Type := {
  api_id : string;
  api_email_addresses : option (list EmailAddress);
  api_created_at : option Z
}.

(** The decoded body of a reply: a bare array, or an object that may have a
    [data] member. *)
Inductive clerk_response : Type :=
  | BareArray (items : list ClerkApiUser)
  | DataObject (data : option (list ClerkApiUser)).

Record IdentityUser : Type := {
  user_id : string;
  user_email : string;
  user_created_at : string
}.

Record request : Type := {
  url : string;
  headers : list (string * string)
}.

Definition page_size : nat := 100.

Definition users_request (api_key : string) (page : nat) : request :=
  {| url := "https://api.clerk.com/v1/users?limit=" +:+ PyStr.str_len page_size
            +:+ "&page=" +:+ PyStr.str_len page;
     headers := [("Authorization", "Bearer " +:+ api_key);
                 ("Content-Type", "application/json");
                 ("User-Agent", "packzen-admin/1.0")] |}.

Definition batch_of (data : clerk_response) : list ClerkApiUser :=
  match data with
  | BareArray items => items
  | DataObject data => default [] data
  end.

Section ClerkApi.
(** [strftime ms] is the outcome of
    [datetime.fromtimestamp(ms / 1000, tz=timezone.utc)] followed by
    [strftime] with the format [%Y-%m-%d %H:%M:%S]: the text, or the exception
    raised for a time stamp out of range; [clerk_api page] is the decoded
    reply to the request for page [page]. *)
Variable strftime : Z → exn + string.
Variable clerk_api : nat → clerk_response.

(** The body of [for u in batch]: the user it appends, or the exception it
    raises. *)
Definition clerk_user (u : ClerkApiUser) : exn + IdentityUser :=
  let email :=
    match api_email_addresses u with
    | Some (first :: _) => default EmptyString (email_address first)
    | _ => EmptyString
    end in
  let created_ts := default 0 (api_created_at u) in
  match strftime created_ts with
  | inl e => inl e
  | inr created_at =>
      inr {| user_id := api_id u;
             user_email := email;
             user_created_at := created_at |}
  end.

(** [for u in batch]: the users appended, or the first exception. *)
Fixpoint clerk_users_of (batch : list ClerkApiUser)
  : exn + list IdentityUser :=
  match batch with
  | [] => inr []
  | u :: rest =>
      match clerk_user u with
      | inl e => inl e
      | inr user =>
          match clerk_users_of rest with
          | inl e => inl e
          | inr users => inr (user :: users)
          end
      end
  end.

(** The [while True] loop; [sent] lists the requests issued so far.  The
    loop need not end: [None] when [fuel] iterations were not enough. *)
Fixpoint fetch_pages (api_key : string) (fuel : nat) (page : nat)
    (users : list IdentityUser) (sent : list request)
  : option (outcome (list IdentityUser) * list request) :=
  match fuel with
  | O => None
  | S fuel' =>
      let sent := sent ++ [users_request api_key page] in
      let batch := batch_of (clerk_api page) in
      match batch with
      | [] => Some (Return users, sent)
      | _ :: _ =>
          match clerk_users_of batch with
          | inl e => Some (Raise e, sent)
          | inr appended =>
              let users := users ++ appended in
              if bool_decide (length batch < page_size)%nat
              then Some (Return users, sent)
              else fetch_pages api_key fuel' (S page) users sent
          end
      end
  end.

Definition fetch_clerk_users (environ : gmap string string) (fuel : nat)
  : option (outcome (list IdentityUser) * list request) :=
  match default EmptyString (environ !! "CLERK_SECRET_KEY") with
  | EmptyString => Some (Exit "Error: CLERK_SECRET_KEY not set" 1, [])
  | String c s => fetch_pages (String c s) fuel 1 [] []
  end.

(** The conversion of the time stamp of [u] does not raise. *)
Definition converts (u : ClerkApiUser) : Prop :=
  ∃ created_at, strftime (default 0 (api_created_at u)) = inr created_at.
End ClerkApi.

(** A page source that serves the pages of a list one after the other and an
    empty page after the last. *)
Definition mock_api (pages : list (list ClerkApiUser)) (page : nat)
  : clerk_response :=
  BareArray (default [] (pages !! (page - 1)%nat)).

(** ** Report *)

Record DatabaseUserSummary : Type := {
  clerk_user_id : string;
  trip_count : Z;
  master_item_count : Z;
  category_count : Z;
  bag_template_count : Z
}.

(** The values one pass of the report loop computes and prints. *)
Record ReconciliationRow : Type := {
  row_uid : string;
  row_email : string;
  row_trips : Z;
  row_items : Z;
  row_cats : Z;
  row_tmpls : Z;
  row_status : string
}.

(** What [main] has printed so far, and how a step of it ends. *)
Definition io (A : Type) : Type := list string → list string * outcome A.

Definition io_ret {A} (a : A) : io A := λ out, (out, Return a).

Definition io_bind {A B} (m : io A) (k : A → io B) : io B :=
  λ out,
    match m out with
    | (out', Return a) => k a out'
    | (out', Exit message code) => (out', Exit message code)
    | (out', Raise e) => (out', Raise e)
    end.

Definition print (s : string) : io unit := λ out, (out ++ [s], Return tt).

Definition raise {A} (e : exn) : io A := λ out, (out, Raise e).

#[global] Instance io_mret : MRet io := @io_ret.
#[global] Instance io_mbind : MBind io := λ A B k m, io_bind m k.

(** [for x in l: acc = body(acc, x)] *)
Fixpoint for_each {A S} (l : list A) (body : S → A → io S) (acc : S) : io S :=
  match l with
  | [] => mret acc
  | x :: l' => acc' ← body acc x; for_each l' body acc'
  end.

(** [sorted] on strings. *)
Definition sorted : list string → list string := merge_sort String.le.

(** [a < b] on strings. *)
Definition str_lt (a b : string) : Prop := String.compare a b = Lt.

(** [{u["id"]: u for u in clerk_users}]: a later user replaces an earlier one
    with the same id. *)
Definition clerk_by_id_of (clerk_users : list IdentityUser)
  : gmap string IdentityUser :=
  fold_left (λ m u, <[user_id u := u]> m) clerk_users ∅.

Definition db_ids_of (db_users : list DatabaseUserSummary) : gset string :=
  list_to_set (clerk_user_id <$> db_users).

(** [next((r for r in db_users if r["clerk_user_id"] == uid), None)] *)
Definition next_db_row (db_users : list DatabaseUserSummary) (uid : string)
  : option DatabaseUserSummary :=
  List.find (λ r, bool_decide (clerk_user_id r = uid)) db_users.

(** Truth value of a dictionary-or-[None]: the dictionaries of the script
    are never empty. *)
Definition truthy {A} (o : option A) : bool :=
  match o with Some _ => true | None => false end.

(** The body of [for uid in all_ids] up to its [print]. *)
Definition reconcile (clerk_by_id : gmap string IdentityUser)
    (db_users : list DatabaseUserSummary)
    (acc : list string * list string) (uid : string)
  : ReconciliationRow * (list string * list string) :=
  let '(orphaned_db, unused_clerk) := acc in
  let clerk := clerk_by_id !! uid in
  let db_row := next_db_row db_users uid in
  let email := match clerk with Some c => user_email c | None => EmptyString end in
  let trips := match db_row with Some r => trip_count r | None => 0 end in
  let items := match db_row with Some r => master_item_count r | None => 0 end in
  let cats := match db_row with Some r => category_count r | None => 0 end in
  let tmpls := match db_row with Some r => bag_template_count r | None => 0 end in
  let '(status, orphaned_db, unused_clerk) :=
    if truthy clerk && truthy db_row then
      ("ok", orphaned_db, unused_clerk)
    else if truthy clerk && negb (truthy db_row) then
      ("NO DB DATA", orphaned_db, unused_clerk ++ [uid])
    else
      ("** ORPHANED DB DATA **", orphaned_db ++ [uid], unused_clerk) in
  ({| row_uid := uid; row_email := email; row_trips := trips;
      row_items := items; row_cats := cats; row_tmpls := tmpls;
      row_status := status |},
   (orphaned_db, unused_clerk)).

Definition table_header : string :=
  PyStr.ljust 36 "USER_ID" +:+ " " +:+ PyStr.ljust 35 "EMAIL" +:+ " "
  +:+ PyStr.rjust 5 "TRIPS" +:+ " " +:+ PyStr.rjust 5 "ITEMS" +:+ " "
  +:+ PyStr.rjust 4 "CATS" +:+ " " +:+ PyStr.rjust 4 "TMPL" +:+ "  STATUS".

Definition table_rule : string :=
  PyStr.times "-" 36 +:+ " " +:+ PyStr.times "-" 35 +:+ " "
  +:+ PyStr.times "-" 5 +:+ " " +:+ PyStr.times "-" 5 +:+ " "
  +:+ PyStr.times "-" 4 +:+ " " +:+ PyStr.times "-" 4 +:+ "  "
  +:+ PyStr.times "-" 20.

Definition row_line (r : ReconciliationRow) : string :=
  PyStr.ljust 36 (row_uid r) +:+ " " +:+ PyStr.ljust 35 (row_email r) +:+ " "
  +:+ PyStr.rjust 5 (PyStr.str_int (row_trips r)) +:+ " "
  +:+ PyStr.rjust 5 (PyStr.str_int (row_items r)) +:+ " "
  +:+ PyStr.rjust 4 (PyStr.str_int (row_cats r)) +:+ " "
  +:+ PyStr.rjust 4 (PyStr.str_int (row_tmpls r)) +:+ "  " +:+ row_status r.

Definition orphaned_heading (n : nat) : string :=
  newline +:+ "Orphaned DB users (no Clerk account): " +:+ PyStr.str_len n.

Definition orphaned_line (uid : string) (row : DatabaseUserSummary) : string :=
  "  " +:+ uid +:+ "  (" +:+ PyStr.str_int (trip_count row) +:+ " trips, "
  +:+ PyStr.str_int (master_item_count row) +:+ " items)".

Definition no_orphaned_line : string :=
  newline +:+ "No orphaned DB data found -- all DB users have Clerk accounts.".

Definition unused_heading (n : nat) : string :=
  newline +:+ "Clerk users with no DB data: " +:+ PyStr.str_len n.

Definition unused_line (uid email : string) : string :=
  "  " +:+ uid +:+ "  (" +:+ email +:+ ")".

Section Report.
(** The order in which this run iterates over a set. *)
Variable set_iter : gset string → list string.

Definition all_ids_of (clerk_by_id : gmap string IdentityUser)
    (db_ids : gset string) : list string :=
  sorted (set_iter (dom clerk_by_id ∪ db_ids)).

(** [main], given the lists [clerk_users] and [db_users] that its calls of
    [fetch_clerk_users] and [fetch_db_users] return. *)
Definition main (clerk_users : list IdentityUser)
    (db_users : list DatabaseUserSummary) : io unit :=
  print "Fetching Clerk users..." ;;
  let clerk_by_id := clerk_by_id_of clerk_users in
  print "Querying D1 database..." ;;
  let db_ids := db_ids_of db_users in
  let all_ids := all_ids_of clerk_by_id db_ids in
  print EmptyString ;;
  print table_header ;;
  print table_rule ;;
  acc ← for_each all_ids
           (λ acc uid,
              let '(row, acc') := reconcile clerk_by_id db_users acc uid in
              print (row_line row) ;; mret acc')
           ([], []);
  let '(orphaned_db, unused_clerk) := acc in
  print EmptyString ;;
  print ("Clerk users:  " +:+ PyStr.str_len (length clerk_users)) ;;
  print ("DB users:     " +:+ PyStr.str_len (length db_users)) ;;
  match orphaned_db with
  | _ :: _ =>
      print (orphaned_heading (length orphaned_db)) ;;
      for_each orphaned_db
        (λ _ uid,
           match next_db_row db_users uid with
           | Some row => print (orphaned_line uid row)
           | None => raise StopIteration
           end) tt
  | [] => print no_orphaned_line
  end ;;
  match unused_clerk with
  | _ :: _ =>
      print (unused_heading (length unused_clerk)) ;;
      for_each unused_clerk
        (λ _ uid,
           match clerk_by_id !! uid with
           | Some clerk => print (unused_line uid (user_email clerk))
           | None => raise KeyError
           end) tt
  | [] => mret tt
  end.

(** The value of [all_ids] in [main]. *)
Definition all_ids (clerk_users : list IdentityUser)
    (db_users : list DatabaseUserSummary) : list string :=
  all_ids_of (clerk_by_id_of clerk_users) (db_ids_of db_users).

(** The rows of the table: what the loop computes for each id, in order. *)
Definition report_rows (clerk_users : list IdentityUser)
    (db_users : list DatabaseUserSummary) : list ReconciliationRow :=
  (λ uid, (reconcile (clerk_by_id_of clerk_users) db_users ([], []) uid).1)
    <$> all_ids clerk_users db_users.
End Report.

(** What [main] prints before the rows of the table, and between the table
    and the two lists of the summary. *)
Definition preamble : list string :=
  ["Fetching Clerk users..."; "Querying D1 database..."; EmptyString;
   table_header; table_rule].

Definition count_lines (clerk_users : list IdentityUser)
    (db_users : list DatabaseUserSummary) : list string :=
  [EmptyString;
   "Clerk users:  " +:+ PyStr.str_len (length clerk_users);
   "DB users:     " +:+ PyStr.str_len (length db_users)].

(** The text on the console. *)
Definition console (out : list string) : string :=
  String.concat EmptyString ((λ s, s +:+ newline) <$> out).

(** A set iteration lists the elements of the set, each once. *)
Definition set_iteration (it : gset string → list string) : Prop :=
  ∀ X : gset string, it X ≡ₚ elements X.

(** Sample data. *)
Definition sample_row : ReconciliationRow :=
  {| row_uid := "user_c"; row_email := EmptyString; row_trips := 3;
     row_items := 12; row_cats := 4; row_tmpls := 1;
     row_status := "** ORPHANED DB DATA **" |}.

Definition sample_run (argv : list string) : completed_process :=
  {| returncode := 0; stdout := "[1]"; stderr := EmptyString |}.

Definition sample_json_loads (text : string) : option json :=
  if bool_decide (text = "[1]") then Some (JList [JInt 1]) else None.

Definition sample_api_user (n : nat) : ClerkApiUser :=
  {| api_id := "user_" +:+ PyStr.str_len n;
     api_email_addresses := Some [ {| email_address := Some "a@x.com" |} ];
     api_created_at := Some 1700000000000 |}.

Definition sample_page (size : nat) : list ClerkApiUser :=
  sample_api_user <$> seq 0 size.

(** A stand-in for the conversion of a time stamp: it accepts the
    milliseconds of the years 1 to 9999, as [datetime] does, gives each of
    them the same text, and raises [ValueError] for any other. *)
Definition sample_strftime (ms : Z) : exn + string :=
  if (-62135596800000 <=? ms) && (ms <? 253402300800000)
  then inr "2023-11-14 22:13:20" else inl ValueError.

(** A user whose time stamp is the first millisecond of the year 10000. *)
Definition sample_late_user : ClerkApiUser :=
  {| api_id := "user_late";
     api_email_addresses := None;
     api_created_at := Some 253402300800000 |}.

Definition sample_environ : gmap string string :=
  {[ "CLERK_SECRET_KEY" := "sk_test" ]}.

(** The environment after [sample_env_text] below is loaded into the empty
    one. *)
Definition sample_environ_loaded : gmap string string :=
  {[ "WRANGLER_BIN" := "/opt/wrangler"; "CLERK_SECRET_KEY" := "sk_live_2" ]}.

(** A line without [=] that holds a NUL character. *)
Definition sample_nul_line : string :=
  String "A"%char (String NUL (String "B"%char EmptyString)).

Definition sample_env_line : string :=
  "  KEY = 'abc" +:+ String "034"%char EmptyString.

Definition sample_clerk_users : list IdentityUser :=
  [ {| user_id := "user_b"; user_email := "b@x.com";
       user_created_at := "2024-01-02 03:04:05" |};
    {| user_id := "user_a"; user_email := "a@x.com";
       user_created_at := "2024-01-01 00:00:00" |} ].

Definition sample_db_users : list DatabaseUserSummary :=
  [ {| clerk_user_id := "user_c"; trip_count := 3; master_item_count := 12;
       category_count := 4; bag_template_count := 1 |};
    {| clerk_user_id := "user_a"; trip_count := 1; master_item_count := 0;
       category_count := 2; bag_template_count := 0 |} ].

(** ** What a list of lines binds *)

(** The value that the last line of [lines] that binds [key] gives it. *)
Fixpoint last_binding (lines : list string) (key : string) : option string :=
  match lines with
  | [] => None
  | line :: rest =>
      match last_binding rest key with
      | Some value => Some value
      | None =>
          match parse_env_line line with
          | Some (k, value) => if bool_decide (k = key) then Some value else None
          | None => None
          end
      end
  end.

(** A line whose name and value, if it binds one, the environment takes:
    the name is not empty and neither holds a NUL character. *)
Definition storable (line : string) : Prop :=
  ∀ key value,
    parse_env_line line = Some (key, value) →
    key ≠ EmptyString
    ∧ PyStr.mem NUL key = false ∧ PyStr.mem NUL value = false.

Definition double_quote : string := String "034"%char EmptyString.

Definition sample_env_text : string :=
  "# production" +:+ newline
  +:+ "CLERK_SECRET_KEY = 'sk_live_1'" +:+ newline
  +:+ newline
  +:+ "WRANGLER_BIN=" +:+ double_quote +:+ "/opt/wrangler" +:+ double_quote
  +:+ newline
  +:+ "CLERK_SECRET_KEY=sk_live_2" +:+ newline.

Definition sample_run_ok (argv : list string) : completed_process :=
  {| returncode := 0;
     stdout := "[{" +:+ double_quote +:+ "results" +:+ double_quote
               +:+ ": null, " +:+ double_quote +:+ "success" +:+ double_quote
               +:+ ": true}, 7]";
     stderr := EmptyString |}.

Definition sample_json_loads_ok (text : string) : option json :=
  Some (JList [JDict [("results", JNull); ("success", JBool true)]; JInt 7]).

(** Lists in which an id occurs twice. *)
Definition sample_dup_clerk_users : list IdentityUser :=
  [ {| user_id := "user_a"; user_email := "old@x.com";
       user_created_at := "2024-01-01 00:00:00" |};
    {| user_id := "user_a"; user_email := "new@x.com";
       user_created_at := "2024-02-01 00:00:00" |} ].

Definition sample_dup_db_users : list DatabaseUserSummary :=
  [ {| clerk_user_id := "user_a"; trip_count := 1; master_item_count := 2;
       category_count := 3; bag_template_count := 4 |};
    {| clerk_user_id := "user_a"; trip_count := 9; master_item_count := 9;
       category_count := 9; bag_template_count := 9 |} ].

Definition sample_dup_row : ReconciliationRow :=
  {| row_uid := "user_a"; row_email := "new@x.com"; row_trips := 1;
     row_items := 2; row_cats := 3; row_tmpls := 4; row_status := "ok" |}.

(** * Properties *)

(** ** String primitives *)

Section StringFacts.
Variable p : ascii → bool.

Lemma append_cons c s t : String c s +:+ t = String c (s +:+ t).
Proof. reflexivity. Qed.

Lemma lstrip_with_idem s :
  PyStr.lstrip_with p (PyStr.lstrip_with p s) = PyStr.lstrip_with p s.
Proof.
  induction s as [|c s IH]; simpl; [done|].
  destruct (p c) eqn:Hc; [done|]. simpl. by rewrite Hc.
Qed.

Lemma rstrip_with_idem s :
  PyStr.rstrip_with p (PyStr.rstrip_with p s) = PyStr.rstrip_with p s.
Proof.
  induction s as [|c s IH]; simpl; [done|].
  destruct (PyStr.rstrip_with p s) as [|d t] eqn:Ht.
  - destruct (p c) eqn:Hc; simpl; [done|]. by rewrite Hc.
  - change (PyStr.rstrip_with p (String c (String d t)))
      with (match PyStr.rstrip_with p (String d t) with
            | EmptyString => if p c then EmptyString else String c EmptyString
            | String d' t' => String c (String d' t')
            end).
    by rewrite IH.
Qed.

Lemma lstrip_rstrip_with s :
  PyStr.lstrip_with p (PyStr.rstrip_with p s)
  = PyStr.rstrip_with p (PyStr.lstrip_with p s).
Proof.
  induction s as [|c s IH]; [done|].
  cbn [PyStr.lstrip_with PyStr.rstrip_with].
  destruct (p c) eqn:Hc.
  - rewrite <- IH. destruct (PyStr.rstrip_with p s) as [|d t]; [done|].
    cbn [PyStr.lstrip_with]. by rewrite Hc.
  - cbn [PyStr.rstrip_with].
    destruct (PyStr.rstrip_with p s) as [|d t];
      cbn [PyStr.lstrip_with]; by rewrite Hc.
Qed.

Lemma strip_with_idem s :
  PyStr.strip_with p (PyStr.strip_with p s) = PyStr.strip_with p s.
Proof.
  unfold PyStr.strip_with.
  by rewrite lstrip_rstrip_with, lstrip_with_idem, rstrip_with_idem.
Qed.

Lemma mem_lstrip_with c s :
  PyStr.mem c s = false → PyStr.mem c (PyStr.lstrip_with p s) = false.
Proof.
  induction s as [|d s IH]; simpl; [done|].
  destruct (Ascii.eqb c d) eqn:Hcd; [done|]. intros Hs.
  destruct (p d); [by apply IH|]. simpl. by rewrite Hcd.
Qed.

Lemma mem_rstrip_with c s :
  PyStr.mem c s = false → PyStr.mem c (PyStr.rstrip_with p s) = false.
Proof.
  induction s as [|d s IH]; simpl; [done|].
  destruct (Ascii.eqb c d) eqn:Hcd; [done|]. intros Hs.
  specialize (IH Hs). destruct (PyStr.rstrip_with p s) as [|e t].
  - destruct (p d); simpl; [done|]. by rewrite Hcd.
  - change (PyStr.mem c (String d (String e t)))
      with (if Ascii.eqb c d then true else PyStr.mem c (String e t)).
    by rewrite Hcd.
Qed.

Lemma mem_strip_with c s :
  PyStr.mem c s = false → PyStr.mem c (PyStr.strip_with p s) = false.
Proof. intros. by apply mem_rstrip_with, mem_lstrip_with. Qed.

End StringFacts.

Section StripShape.
Variable p : ascii → bool.

(** What [lstrip] removes consists of stripped characters, and what it
    leaves does not begin with one. *)
Lemma lstrip_with_shape s :
  ∃ l, s = l +:+ PyStr.lstrip_with p s
       ∧ PyStr.all_chars p l = true
       ∧ PyStr.clean_end p (PyStr.first_char (PyStr.lstrip_with p s)) = true.
Proof.
  induction s as [|c s (l & Hl & Hall & Hfirst)]; [by exists EmptyString|].
  simpl. destruct (p c) eqn:Hc.
  - exists (String c l). rewrite append_cons, <- Hl. simpl. by rewrite Hc, Hall.
  - exists EmptyString. simpl. by rewrite Hc.
Qed.

Lemma rstrip_with_shape s :
  ∃ r, s = PyStr.rstrip_with p s +:+ r
       ∧ PyStr.all_chars p r = true
       ∧ PyStr.clean_end p (PyStr.last_char (PyStr.rstrip_with p s)) = true.
Proof.
  induction s as [|c s (r & Hr & Hall & Hlast)]; [by exists EmptyString|].
  simpl. destruct (PyStr.rstrip_with p s) as [|d t] eqn:Ht.
  - change (s = r) in Hr. subst r. destruct (p c) eqn:Hc.
    + exists (String c s). split; [done|]. split; [|done].
      simpl. by rewrite Hc, Hall.
    + exists s. split; [done|]. split; [done|]. simpl. by rewrite Hc.
  - exists r. by rewrite append_cons, <- Hr.
Qed.

Lemma strip_with_stripped s : PyStr.stripped p s (PyStr.strip_with p s).
Proof.
  destruct (lstrip_with_shape s) as (l & Hl & Hall & _).
  destruct (rstrip_with_shape (PyStr.lstrip_with p s)) as (r & Hr & Hallr & Hlast).
  exists l, r. unfold PyStr.strip_with. repeat split; try done.
  - by rewrite <- Hr.
  - rewrite <- lstrip_rstrip_with.
    by destruct (lstrip_with_shape (PyStr.rstrip_with p s)) as (? & _ & _ & ?).
Qed.
End StripShape.

Lemma append_assoc s t u : (s +:+ t) +:+ u = s +:+ (t +:+ u).
Proof. induction s as [|c s IH]; [done|]. by rewrite !append_cons, IH. Qed.

Lemma mem_append c s t :
  PyStr.mem c (s +:+ t) = PyStr.mem c s || PyStr.mem c t.
Proof.
  induction s as [|d s IH]; [done|]. simpl.
  by destruct (Ascii.eqb c d).
Qed.

Lemma partition_absent sep s :
  PyStr.mem sep s = false →
  PyStr.partition sep s = (s, EmptyString, EmptyString).
Proof.
  induction s as [|c s IH]; simpl; [done|].
  rewrite (Ascii.eqb_sym sep c). destruct (Ascii.eqb c sep); [done|].
  intros Hs. by rewrite IH.
Qed.

Lemma partition_first sep k v :
  PyStr.mem sep k = false →
  PyStr.partition sep (k +:+ String sep v) = (k, String sep EmptyString, v).
Proof.
  induction k as [|c k IH]; intros Hk.
  - change (EmptyString +:+ String sep v) with (String sep v).
    simpl. by rewrite Ascii.eqb_refl.
  - rewrite append_cons. simpl in *. rewrite (Ascii.eqb_sym sep c) in Hk.
    destruct (Ascii.eqb c sep); [done|]. by rewrite IH.
Qed.

(** ** Environment loader *)

Lemma parse_env_line_effective line :
  PyStr.strip line ≠ EmptyString →
  PyStr.startswith (PyStr.strip line) "#" = false →
  parse_env_line line
  = let '(key, _, value) := PyStr.partition "="%char (PyStr.strip line) in
    Some (PyStr.strip key,
          PyStr.strip_chars quote_chars (PyStr.strip value)).
Proof.
  intros Hne Hc. unfold parse_env_line. rewrite Hc.
  by rewrite bool_decide_eq_false_2.
Qed.

(** A store that does not raise updates the mapping. *)
Lemma environ_set_inr environ key value environ' :
  environ_set environ key value = inr environ' →
  environ' = <[key := value]> environ.
Proof.
  unfold environ_set. destruct (_ || _); [done|].
  case_bool_decide; [done|]. by intros [= <-].
Qed.

(** The store raises for no other name and value. *)
Lemma environ_set_stores environ key value :
  PyStr.mem NUL key = false →
  PyStr.mem NUL value = false →
  PyStr.mem "="%char key = false →
  key ≠ EmptyString →
  environ_set environ key value = inr (<[key := value]> environ).
Proof.
  intros Hk Hv He Hne. unfold environ_set. rewrite Hk, Hv, He. simpl.
  by rewrite bool_decide_eq_false_2.
Qed.

Lemma load_env_line_inr environ line environ' :
  load_env_line environ line = inr environ' →
  environ'
  = match parse_env_line line with
    | Some (key, value) => <[key := value]> environ
    | None => environ
    end.
Proof.
  unfold load_env_line. destruct (parse_env_line line) as [[key value]|].
  - apply environ_set_inr.
  - by intros [= <-].
Qed.

(** If the loop runs to its end, the value of a name is the value of the
    last line that binds it, and what the environment had before when no
    line binds it. *)
Lemma load_env_lines_lookup lines : ∀ environ environ' key,
  load_env_lines lines environ = inr environ' →
  environ' !! key
  = match last_binding lines key with
    | Some value => Some value
    | None => environ !! key
    end.
Proof.
  induction lines as [|line lines IH]; intros environ environ' key.
  - by intros [= <-].
  - simpl. destruct (load_env_line environ line) as [e|environ1] eqn:Hline;
      [done|].
    intros Hrest. rewrite (IH _ _ key Hrest).
    destruct (last_binding lines key); [done|].
    rewrite (load_env_line_inr _ _ _ Hline).
    destruct (parse_env_line line) as [[k v]|]; [|done].
    rewrite lookup_insert. case_decide as Hk.
    + by rewrite bool_decide_eq_true_2.
    + by rewrite bool_decide_eq_false_2.
Qed.

Lemma last_binding_unbound lines key :
  (∀ l, l ∈ lines → fst <$> parse_env_line l ≠ Some key) →
  last_binding lines key = None.
Proof.
  induction lines as [|line lines IH]; intros Hlines; [done|]. simpl.
  rewrite IH by (intros l Hl; apply Hlines; by right).
  pose proof (Hlines line ltac:(by left)) as Hline.
  destruct (parse_env_line line) as [[k v]|]; [|done].
  case_bool_decide as Hk; [|done]. by subst k.
Qed.

Lemma last_binding_last before line after key value :
  parse_env_line line = Some (key, value) →
  (∀ l, l ∈ after → fst <$> parse_env_line l ≠ Some key) →
  last_binding (before ++ line :: after) key = Some value.
Proof.
  intros Hline Hafter. induction before as [|l before IH]; simpl.
  - rewrite last_binding_unbound, Hline by done.
    by rewrite bool_decide_eq_true_2.
  - by rewrite IH.
Qed.

Lemma partition_splits line k v :
  splits_at_first_equals line k v →
  ∃ found, PyStr.partition "="%char line = (k, found, v).
Proof.
  intros [[-> Hk]|(Hline & -> & ->)]; eexists.
  - by apply partition_first.
  - by apply partition_absent.
Qed.

(** Every line splits in exactly this way. *)
Lemma splits_at_first_equals_total line :
  ∃ k v, splits_at_first_equals line k v.
Proof.
  induction line as [|c line (k & v & IH)].
  - exists EmptyString, EmptyString. by right.
  - destruct (Ascii.eqb c "=") eqn:Hc.
    + apply Ascii.eqb_eq in Hc as ->. exists EmptyString, line. by left.
    + destruct IH as [[-> Hk]|(Hline & -> & ->)].
      * exists (String c k), v. left. split; [done|]. cbn [PyStr.mem].
        by rewrite Ascii.eqb_sym, Hc.
      * exists (String c line), EmptyString. right. split; [|done].
        cbn [PyStr.mem]. by rewrite Ascii.eqb_sym, Hc.
Qed.

(** The two parts of a line hold no character that the line does not
    hold, and the name part holds no [=]. *)
Lemma splits_at_first_equals_mem c line k v :
  splits_at_first_equals line k v →
  PyStr.mem c line = false →
  PyStr.mem c k = false ∧ PyStr.mem c v = false
  ∧ PyStr.mem "="%char k = false.
Proof.
  intros [[-> Hk]|(Hline & -> & ->)] Hc.
  - rewrite mem_append, orb_false_iff in Hc. destruct Hc as [Hck Hcv].
    split; [done|]. split; [|done]. simpl in Hcv.
    by destruct (Ascii.eqb c "=").
  - done.
Qed.

(** C7, as amended: on a line that is neither blank nor a comment, the
    loader splits at the first [=], trims the white space around the name and
    around the value, and takes every leading and trailing quote character
    off the value, whether or not they pair up; when the name is not empty and
    the line holds no NUL character it stores the value under the name, and of
    several lines with one name the last one counts in a file that loads to
    its end. *)
Theorem load_env_line_key_value environ line k v :
  PyStr.strip line ≠ EmptyString →
  PyStr.startswith (PyStr.strip line) "#" = false →
  splits_at_first_equals (PyStr.strip line) k v →
  ∃ value,
    parse_env_line line = Some (PyStr.strip k, value)
    ∧ PyStr.stripped is_quote (PyStr.strip v) value
    ∧ (PyStr.strip k ≠ EmptyString →
       PyStr.mem NUL line = false →
       load_env_line environ line = inr (<[PyStr.strip k := value]> environ))
    ∧ ∀ env_path text before after environ',
        PyStr.splitlines text = before ++ line :: after →
        (∀ l, l ∈ after →
              fst <$> parse_env_line l ≠ Some (PyStr.strip k)) →
        load_env env_path (Some text) environ = Return environ' →
        environ' !! PyStr.strip k = Some value.
Proof.
  intros Hne Hcomment Hsplit.
  assert (parse_env_line line
          = Some (PyStr.strip k,
                  PyStr.strip_chars quote_chars (PyStr.strip v))) as Hparse.
  { rewrite parse_env_line_effective by done.
    by destruct (partition_splits _ _ _ Hsplit) as [found ->]. }
  eexists. split; [exact Hparse|]. split; [apply strip_with_stripped|]. split.
  - intros Hkey Hnul. unfold load_env_line. rewrite Hparse.
    destruct (splits_at_first_equals_mem NUL _ _ _ Hsplit)
      as (Hk & Hv & He); [by apply mem_strip_with|].
    apply environ_set_stores; [| |by apply mem_strip_with|done].
    + by apply mem_strip_with.
    + by do 2 apply mem_strip_with.
  - intros env_path text before after environ' Hlines Hafter. simpl.
    destruct (load_env_lines _ _) as [e|environ1] eqn:Hload; [done|].
    intros [= <-]. rewrite (load_env_lines_lookup _ _ _ _ Hload), Hlines.
    by rewrite (last_binding_last _ _ _ _ _ Hparse Hafter).
Qed.

Lemma load_env_line_key_value_witness :
  parse_env_line sample_env_line = Some ("KEY", "abc")
  ∧ load_env_line ∅ sample_env_line = inr {[ "KEY" := "abc" ]}
  ∧ ∀ env_path text before after environ',
      PyStr.splitlines text = before ++ sample_env_line :: after →
      (∀ l, l ∈ after → fst <$> parse_env_line l ≠ Some "KEY") →
      load_env env_path (Some text) ∅ = Return environ' →
      environ' !! "KEY" = Some "abc".
Proof.
  destruct (load_env_line_key_value ∅ sample_env_line "KEY "
              (" 'abc" +:+ String "034"%char EmptyString))
    as (value & Hparse & _ & Hstore & Hfile).
  - vm_compute. discriminate.
  - vm_compute. reflexivity.
  - left. vm_compute. split; reflexivity.
  - assert (value = "abc") as ->.
    { apply (inj Some) in Hparse. by apply (f_equal snd) in Hparse. }
    split; [reflexivity|]. split; [|exact Hfile].
    rewrite Hstore; [reflexivity|by vm_compute|reflexivity].
Defined.

(** C7 as the specification words it does not hold: a value that opens with
    a quote and does not close with one loses the quote, where the rule of
    the matching pair would keep it. *)
Lemma load_env_line_unmatched_quote :
  parse_env_line "KEY='abc" = Some ("KEY", "abc")
  ∧ load_env_line ∅ "KEY='abc" = inr {[ "KEY" := "abc" ]}
  ∧ unquote_matching_pair (PyStr.strip "'abc") = "'abc"
  ∧ ¬ (∀ environ line k v,
         PyStr.strip line ≠ EmptyString →
         PyStr.startswith (PyStr.strip line) "#" = false →
         splits_at_first_equals (PyStr.strip line) k v →
         load_env_line environ line
         = inr (<[PyStr.strip k := unquote_matching_pair (PyStr.strip v)]>
                  environ)).
Proof.
  split; [reflexivity|]. split; [by vm_compute|]. split; [reflexivity|].
  intros H.
  assert (load_env_line ∅ "KEY='abc" = inr {[ "KEY" := "'abc" ]}) as Hkey.
  { rewrite (H ∅ "KEY='abc" "KEY" "'abc"); [by vm_compute|by vm_compute|done|].
    left. by vm_compute. }
  vm_compute in Hkey. discriminate Hkey.
Qed.

(** C10, as amended: a line that is neither blank nor a comment, has no
    [=] and holds no NUL character is not passed over: the whole trimmed line
    becomes a name whose value is the empty string. *)
Theorem load_env_line_without_equals environ line :
  PyStr.strip line ≠ EmptyString →
  PyStr.startswith (PyStr.strip line) "#" = false →
  PyStr.mem "="%char line = false →
  PyStr.mem NUL line = false →
  parse_env_line line = Some (PyStr.strip line, EmptyString)
  ∧ load_env_line environ line
    = inr (<[PyStr.strip line := EmptyString]> environ).
Proof.
  intros Hne Hcomment Heq Hnul.
  assert (parse_env_line line = Some (PyStr.strip line, EmptyString)) as Hparse.
  { rewrite parse_env_line_effective by done.
    rewrite partition_absent by by apply mem_strip_with.
    unfold PyStr.strip. by rewrite strip_with_idem. }
  split; [done|]. unfold load_env_line. rewrite Hparse.
  apply environ_set_stores; [by apply mem_strip_with|done| |done].
  by apply mem_strip_with.
Qed.

Lemma load_env_line_without_equals_witness :
  parse_env_line "  export  " = Some (PyStr.strip "  export  ", EmptyString)
  ∧ load_env_line ∅ "  export  "
    = inr (<[PyStr.strip "  export  " := EmptyString]> ∅).
Proof.
  apply (load_env_line_without_equals ∅ "  export  ");
    vm_compute; [discriminate|reflexivity|reflexivity|reflexivity].
Defined.

(** C10 as it is worded does not hold: a line without [=] that holds a NUL
    character is neither blank nor a comment, and the loader does not store
    it: the store raises and the run ends there. *)
Lemma load_env_line_nul_rejected :
  PyStr.strip sample_nul_line ≠ EmptyString
  ∧ PyStr.startswith (PyStr.strip sample_nul_line) "#" = false
  ∧ PyStr.mem "="%char sample_nul_line = false
  ∧ load_env_line ∅ sample_nul_line = inl ValueError
  ∧ load_env ".env.production.local" (Some sample_nul_line) ∅
    = Raise ValueError
  ∧ ¬ (∀ environ line,
         PyStr.strip line ≠ EmptyString →
         PyStr.startswith (PyStr.strip line) "#" = false →
         PyStr.mem "="%char line = false →
         load_env_line environ line
         = inr (<[PyStr.strip line := EmptyString]> environ)).
Proof.
  split; [by vm_compute|]. do 4 (split; [reflexivity|]). intros H.
  specialize (H ∅ sample_nul_line ltac:(by vm_compute) eq_refl eq_refl).
  vm_compute in H. discriminate H.
Qed.

(** ** Database query runner *)

Lemma dict_get_absent members key default :
  has_key members key = false → dict_get members key default = default.
Proof.
  unfold has_key. rewrite bool_decide_eq_false.
  induction members as [|[k v] members IH]; simpl; [done|].
  intros Hkey. rewrite bool_decide_eq_false_2.
  - apply IH. intros ?. apply Hkey. by right.
  - intros ->. apply Hkey. by left.
Qed.

(** Where the defensive default does apply: the decoded output is not a
    list, or is an empty list, or starts with an object that has no
    [results] member. *)
Lemma query_d1_rows_default data :
  expected_shape data = false →
  (∀ first rest, data = JList (first :: rest) →
                 ∃ members, first = JDict members) →
  query_d1_rows data = Return (JList []).
Proof.
  intros Hshape Hfirst. destruct data as [| | | | |items|]; try done.
  destruct items as [|first rest]; [done|].
  destruct (Hfirst first rest eq_refl) as [members ->]. simpl in *.
  by rewrite dict_get_absent.
Qed.

(** C6: decoded output that is a list whose first element is not an object
    has none of the expected shape, and the query runner does not return an
    empty sequence on it: the attribute lookup on the first element raises. *)
Theorem query_d1_first_not_object :
  expected_shape (JList [JInt 1]) = false
  ∧ query_d1_rows (JList [JInt 1]) = Raise AttributeError
  ∧ query_d1 sample_run sample_json_loads "wrangler" "packzen-db" "SELECT 1"
    = Raise AttributeError
  ∧ ¬ (∀ data, expected_shape data = false →
               query_d1_rows data = Return (JList [])).
Proof.
  repeat split; try reflexivity.
  intros H. specialize (H (JList [JInt 1]) eq_refl). discriminate H.
Qed.

(** ** Identity client *)

Section Pagination.
Variable strftime : Z → exn + string.
Variable clerk_api : nat → clerk_response.
Variable api_key : string.

Lemma clerk_user_keeps_id u user :
  clerk_user strftime u = inr user → user_id user = api_id u.
Proof.
  unfold clerk_user. destruct (strftime _); [done|]. by intros [= <-].
Qed.

(** The loop over a page appends one user for each of its users, in
    order, when no conversion raises. *)
Lemma clerk_users_of_inr batch users :
  clerk_users_of strftime batch = inr users
  ↔ Forall2 (λ u user, clerk_user strftime u = inr user) batch users.
Proof.
  revert users.
  induction batch as [|u batch IH]; intros users; cbn [clerk_users_of].
  - split.
    + intros [= <-]. constructor.
    + by intros ->%Forall2_nil_inv_l.
  - split.
    + destruct (clerk_user strftime u) as [e|user] eqn:Hu; [done|].
      destruct (clerk_users_of strftime batch) as [e|rest] eqn:Hrest; [done|].
      intros [= <-]. constructor; [done|]. by apply IH.
    + intros (user & rest & Hu & Hrest & ->)%Forall2_cons_inv_l.
      apply IH in Hrest. by rewrite Hu, Hrest.
Qed.

Lemma clerk_users_of_converts batch :
  (∀ u, u ∈ batch → converts strftime u) →
  ∃ users, clerk_users_of strftime batch = inr users.
Proof.
  induction batch as [|u batch IH]; intros Hconv; simpl; [by eexists|].
  destruct (Hconv u ltac:(by left)) as [created_at Hu].
  destruct IH as [users Husers]; [intros ? ?; apply Hconv; by right|].
  unfold clerk_user. rewrite Hu, Husers. by eexists.
Qed.

(** The loop stops at the first page shorter than the page size, after
    [k] full pages, when the time stamps of these pages convert. *)
Lemma fetch_pages_stops k : ∀ fuel page users sent,
  (∀ i, (i < k)%nat →
        (page_size ≤ length (batch_of (clerk_api (page + i))))%nat) →
  (length (batch_of (clerk_api (page + k))) < page_size)%nat →
  (∀ i u, (i ≤ k)%nat → u ∈ batch_of (clerk_api (page + i)) →
          converts strftime u) →
  (k < fuel)%nat →
  ∃ appended,
    fetch_pages strftime clerk_api api_key fuel page users sent
    = Some (Return (users ++ appended),
            sent ++ (users_request api_key <$> seq page (S k)))
    ∧ Forall2 (λ u user, clerk_user strftime u = inr user)
        (concat ((λ q, batch_of (clerk_api q)) <$> seq page (S k)))
        appended.
Proof.
  induction k as [|k IH]; intros fuel page users sent Hfull Hshort Hconv Hfuel.
  - destruct fuel as [|fuel]; [lia|]. rewrite Nat.add_0_r in Hshort.
    pose proof (Hconv 0%nat) as Hc. rewrite Nat.add_0_r in Hc.
    cbn [fetch_pages seq fmap list_fmap concat]. rewrite app_nil_r.
    destruct (batch_of (clerk_api page)) as [|u us] eqn:Hb.
    + exists []. rewrite app_nil_r. split; [done|constructor].
    + destruct (clerk_users_of_converts (u :: us)) as [appended Happ].
      { intros u' Hu'. by apply Hc. }
      rewrite Happ, bool_decide_eq_true_2 by done.
      exists appended. split; [done|]. by apply clerk_users_of_inr.
  - destruct fuel as [|fuel]; [lia|].
    pose proof (Hfull 0%nat ltac:(lia)) as Hp. rewrite Nat.add_0_r in Hp.
    pose proof (Hconv 0%nat) as Hc. rewrite Nat.add_0_r in Hc.
    cbn [fetch_pages].
    destruct (batch_of (clerk_api page)) as [|u us] eqn:Hb;
      [unfold page_size in Hp; simpl in Hp; lia|].
    destruct (clerk_users_of_converts (u :: us)) as [appended Happ].
    { intros u' Hu'. apply Hc; [lia|done]. }
    rewrite Happ, bool_decide_eq_false_2 by lia.
    destruct (IH fuel (S page) (users ++ appended)
                (sent ++ [users_request api_key page]))
      as (appended' & Hrun & Husers).
    + intros i Hi. replace (S page + i)%nat with (page + S i)%nat by lia.
      apply Hfull. lia.
    + by replace (S page + k)%nat with (page + S k)%nat by lia.
    + intros i u' Hi. replace (S page + i)%nat with (page + S i)%nat by lia.
      apply Hconv. lia.
    + lia.
    + exists (appended ++ appended'). split.
      * rewrite Hrun.
        change (seq page (S (S k))) with (page :: seq (S page) (S k)).
        cbn [fmap list_fmap]. by rewrite <- !app_assoc.
      * change (seq page (S (S k))) with (page :: seq (S page) (S k)).
        cbn [fmap list_fmap concat]. rewrite Hb.
        apply Forall2_app; [|done]. by apply clerk_users_of_inr.
Qed.

End Pagination.

Lemma fetch_clerk_users_stops strftime clerk_api environ api_key n fuel :
  environ !! "CLERK_SECRET_KEY" = Some api_key →
  api_key ≠ EmptyString →
  (1 ≤ n)%nat →
  (∀ q, (1 ≤ q < n)%nat →
        (page_size ≤ length (batch_of (clerk_api q)))%nat) →
  (length (batch_of (clerk_api n)) < page_size)%nat →
  (∀ q u, (1 ≤ q ≤ n)%nat → u ∈ batch_of (clerk_api q) →
          converts strftime u) →
  (n ≤ fuel)%nat →
  ∃ users,
    fetch_clerk_users strftime clerk_api environ fuel
    = Some (Return users, users_request api_key <$> seq 1 n)
    ∧ Forall2 (λ u user, clerk_user strftime u = inr user)
        (concat ((λ q, batch_of (clerk_api q)) <$> seq 1 n)) users.
Proof.
  intros Henv Hkey Hn Hfull Hshort Hconv Hfuel. unfold fetch_clerk_users.
  rewrite Henv. simpl. destruct api_key as [|c s]; [done|].
  destruct n as [|k]; [lia|].
  destruct (fetch_pages_stops strftime clerk_api (String c s) k fuel 1 [] [])
    as (appended & Hrun & Husers).
  - intros i Hi. apply Hfull. lia.
  - by replace (1 + k)%nat with (S k) by lia.
  - intros i u Hi. apply Hconv. lia.
  - lia.
  - exists appended. by rewrite Hrun.
Qed.

(** C5, as amended: the identity client asks for page 1, 2, ... and stops
    at the first page with fewer than 100 users, empty or not; when the time
    stamp of every user of these pages converts, it returns one user for each
    of theirs, in order.  Pages of sizes 100, 100, 37 then take 3 requests and
    give 237 users; pages of sizes 100, 0 take 2 requests and give 100
    users. *)
Theorem fetch_clerk_users_pagination strftime environ api_key :
  environ !! "CLERK_SECRET_KEY" = Some api_key →
  api_key ≠ EmptyString →
  (∀ clerk_api n fuel,
     (1 ≤ n)%nat →
     (∀ q, (1 ≤ q < n)%nat →
           (page_size ≤ length (batch_of (clerk_api q)))%nat) →
     (length (batch_of (clerk_api n)) < page_size)%nat →
     (∀ q u, (1 ≤ q ≤ n)%nat → u ∈ batch_of (clerk_api q) →
             converts strftime u) →
     (n ≤ fuel)%nat →
     ∃ users,
       fetch_clerk_users strftime clerk_api environ fuel
       = Some (Return users, users_request api_key <$> seq 1 n)
       ∧ Forall2 (λ u user, clerk_user strftime u = inr user)
           (concat ((λ q, batch_of (clerk_api q)) <$> seq 1 n)) users)
  ∧ (∀ pages fuel,
       length <$> pages = [100; 100; 37]%nat →
       (∀ u, u ∈ concat pages → converts strftime u) →
       (3 ≤ fuel)%nat →
       ∃ users sent,
         fetch_clerk_users strftime (mock_api pages) environ fuel
         = Some (Return users, sent)
         ∧ Forall2 (λ u user, clerk_user strftime u = inr user)
             (concat pages) users
         ∧ sent = users_request api_key <$> [1; 2; 3]%nat
         ∧ length sent = 3%nat ∧ length users = 237%nat)
  ∧ (∀ pages fuel,
       length <$> pages = [100; 0]%nat →
       (∀ u, u ∈ concat pages → converts strftime u) →
       (2 ≤ fuel)%nat →
       ∃ users sent,
         fetch_clerk_users strftime (mock_api pages) environ fuel
         = Some (Return users, sent)
         ∧ Forall2 (λ u user, clerk_user strftime u = inr user)
             (concat pages) users
         ∧ sent = users_request api_key <$> [1; 2]%nat
         ∧ length sent = 2%nat ∧ length users = 100%nat).
Proof.
  intros Henv Hkey. split; [|split].
  - intros. by apply fetch_clerk_users_stops.
  - intros pages fuel Hsizes Hconv Hfuel.
    destruct pages as [|p1 [|p2 [|p3 [|]]]]; try done.
    injection Hsizes as H1 H2 H3.
    destruct (fetch_clerk_users_stops strftime (mock_api [p1; p2; p3])
                environ api_key 3 fuel) as (users & Hrun & Husers);
      [done|done|lia| | | |done|].
    + intros q Hq. assert (q = 1 ∨ q = 2)%nat as [-> | ->] by lia;
        simpl; unfold page_size; lia.
    + simpl. unfold page_size. lia.
    + intros q u Hq Hu. apply Hconv. simpl. rewrite app_nil_r.
      assert (q = 1 ∨ q = 2 ∨ q = 3)%nat as [-> | [-> | ->]] by lia;
        simpl in Hu; rewrite !elem_of_app; tauto.
    + exists users, (users_request api_key <$> seq 1 3).
      split; [done|]. split; [done|]. split; [done|]. split; [done|].
      apply Forall2_length in Husers. rewrite <- Husers. simpl.
      rewrite app_nil_r, !length_app. lia.
  - intros pages fuel Hsizes Hconv Hfuel.
    destruct pages as [|p1 [|p2 [|]]]; try done.
    injection Hsizes as H1 H2.
    destruct (fetch_clerk_users_stops strftime (mock_api [p1; p2])
                environ api_key 2 fuel) as (users & Hrun & Husers);
      [done|done|lia| | | |done|].
    + intros q Hq. assert (q = 1)%nat as -> by lia.
      simpl; unfold page_size; lia.
    + simpl. unfold page_size. lia.
    + intros q u Hq Hu. apply Hconv. simpl. rewrite app_nil_r.
      assert (q = 1 ∨ q = 2)%nat as [-> | ->] by lia;
        simpl in Hu; rewrite !elem_of_app; tauto.
    + exists users, (users_request api_key <$> seq 1 2).
      split; [done|]. split; [done|]. split; [done|]. split; [done|].
      apply Forall2_length in Husers. rewrite <- Husers. simpl.
      rewrite app_nil_r, !length_app. lia.
Qed.

Lemma sample_page_converts size u :
  u ∈ sample_page size → converts sample_strftime u.
Proof.
  unfold sample_page. intros (n & -> & _)%list_elem_of_fmap.
  by eexists.
Qed.

Lemma fetch_clerk_users_pagination_witness :
  (∃ users sent,
     fetch_clerk_users sample_strftime
       (mock_api [sample_page 100; sample_page 100; sample_page 37])
       sample_environ 3
     = Some (Return users, sent)
     ∧ length sent = 3%nat ∧ length users = 237%nat)
  ∧ (∃ users sent,
       fetch_clerk_users sample_strftime
         (mock_api [sample_page 100; sample_page 0]) sample_environ 2
       = Some (Return users, sent)
       ∧ length sent = 2%nat ∧ length users = 100%nat).
Proof.
  destruct (fetch_clerk_users_pagination sample_strftime sample_environ
              "sk_test" eq_refl ltac:(discriminate)) as (_ & H3 & H2).
  split.
  - destruct (H3 [sample_page 100; sample_page 100; sample_page 37] 3%nat
                eq_refl) as (users & sent & Hrun & _ & _ & Hs & Hu).
    + intros u. cbn [concat]. rewrite !elem_of_app, elem_of_nil.
      intros [?|[?|[?|[]]]]; by eapply sample_page_converts.
    + lia.
    + by exists users, sent.
  - destruct (H2 [sample_page 100; sample_page 0] 2%nat
                eq_refl) as (users & sent & Hrun & _ & _ & Hs & Hu).
    + intros u. cbn [concat]. rewrite !elem_of_app, elem_of_nil.
      intros [?|[?|[]]]; by eapply sample_page_converts.
    + lia.
    + by exists users, sent.
Defined.

(** C5 as it is worded does not hold of every page source: pages of sizes
    100, 100, 37 whose first page has a user with a time stamp in the year
    10000 take one request and give no users, because the conversion of the
    time stamp raises. *)
Lemma fetch_clerk_users_timestamp_raises :
  length <$> [sample_page 99 ++ [sample_late_user]; sample_page 100;
              sample_page 37]
  = [100; 100; 37]%nat
  ∧ fetch_clerk_users sample_strftime
      (mock_api [sample_page 99 ++ [sample_late_user]; sample_page 100;
                 sample_page 37])
      sample_environ 3
    = Some (Raise ValueError, [users_request "sk_test" 1])
  ∧ ¬ (∀ strftime pages fuel,
         length <$> pages = [100; 100; 37]%nat → (3 ≤ fuel)%nat →
         ∃ users sent,
           fetch_clerk_users strftime (mock_api pages) sample_environ fuel
           = Some (Return users, sent)
           ∧ length sent = 3%nat ∧ length users = 237%nat).
Proof.
  split; [reflexivity|]. split; [by vm_compute|]. intros H.
  destruct (H sample_strftime
              [sample_page 99 ++ [sample_late_user]; sample_page 100;
               sample_page 37] 3%nat eq_refl ltac:(lia))
    as (users & sent & Hrun & _).
  vm_compute in Hrun. discriminate Hrun.
Qed.

(** ** Report: the two indexes *)

Lemma clerk_by_id_of_snoc clerk_users u :
  clerk_by_id_of (clerk_users ++ [u])
  = <[user_id u := u]> (clerk_by_id_of clerk_users).
Proof. unfold clerk_by_id_of. by rewrite fold_left_app. Qed.

Lemma clerk_by_id_of_Some clerk_users uid u :
  clerk_by_id_of clerk_users !! uid = Some u →
  u ∈ clerk_users ∧ user_id u = uid.
Proof.
  induction clerk_users as [|v clerk_users IH] using rev_ind; [done|].
  rewrite clerk_by_id_of_snoc, lookup_insert. case_decide as Hv.
  - intros [= ->]. split; [|done]. apply elem_of_app. right. by left.
  - intros Hu. destruct (IH Hu) as [Hin Hid]. split; [|done].
    apply elem_of_app. by left.
Qed.

Lemma clerk_by_id_of_is_Some clerk_users uid :
  is_Some (clerk_by_id_of clerk_users !! uid) ↔ uid ∈ user_id <$> clerk_users.
Proof.
  induction clerk_users as [|v clerk_users IH] using rev_ind.
  - unfold clerk_by_id_of. simpl. rewrite lookup_empty.
    split; [by intros [? ?]|by intros ?%elem_of_nil].
  - rewrite clerk_by_id_of_snoc, lookup_insert, fmap_app, elem_of_app.
    simpl. rewrite list_elem_of_singleton. case_decide as Hv.
    + split; [by right|by eexists].
    + rewrite IH. split; [by left|]. intros [?|?]; [done|congruence].
Qed.

Lemma clerk_by_id_of_None clerk_users uid :
  clerk_by_id_of clerk_users !! uid = None ↔ uid ∉ user_id <$> clerk_users.
Proof. by rewrite <- clerk_by_id_of_is_Some, eq_None_not_Some. Qed.

Lemma clerk_by_id_of_NoDup clerk_users u :
  NoDup (user_id <$> clerk_users) →
  u ∈ clerk_users →
  clerk_by_id_of clerk_users !! user_id u = Some u.
Proof.
  induction clerk_users as [|v clerk_users IH] using rev_ind;
    [by intros _ ?%elem_of_nil|].
  rewrite fmap_app, clerk_by_id_of_snoc. simpl.
  intros [Hnd [Hdisj _]]%NoDup_app Hin.
  apply elem_of_app in Hin as [Hin|Hin%list_elem_of_singleton].
  - rewrite lookup_insert_ne; [by apply IH|]. intros Hid.
    apply (Hdisj (user_id u)).
    + by apply list_elem_of_fmap_2.
    + rewrite Hid. by left.
  - subst v. apply lookup_insert_eq.
Qed.

Lemma clerk_by_id_of_dom clerk_users :
  dom (clerk_by_id_of clerk_users)
  = list_to_set (C := gset string) (user_id <$> clerk_users).
Proof.
  apply set_eq. intros uid.
  by rewrite elem_of_dom, clerk_by_id_of_is_Some, elem_of_list_to_set.
Qed.

(** With distinct ids the index does not depend on the order of the list. *)
Lemma clerk_by_id_of_Permutation clerk_users clerk_users' :
  NoDup (user_id <$> clerk_users) →
  clerk_users ≡ₚ clerk_users' →
  clerk_by_id_of clerk_users = clerk_by_id_of clerk_users'.
Proof.
  intros Hnd Hperm. apply map_eq. intros uid.
  assert (NoDup (user_id <$> clerk_users')) as Hnd' by by rewrite <- Hperm.
  destruct (clerk_by_id_of clerk_users !! uid) as [u|] eqn:Hu.
  - apply clerk_by_id_of_Some in Hu as [Hin <-]. symmetry.
    apply clerk_by_id_of_NoDup; [done|]. by rewrite <- Hperm.
  - symmetry. apply clerk_by_id_of_None. rewrite <- Hperm.
    by apply clerk_by_id_of_None.
Qed.

Lemma next_db_row_Some db_users uid r :
  next_db_row db_users uid = Some r →
  r ∈ db_users ∧ clerk_user_id r = uid.
Proof.
  unfold next_db_row. intros [Hin Hid]%find_some.
  rewrite list_elem_of_In. split; [done|]. by apply bool_decide_eq_true in Hid.
Qed.

Lemma next_db_row_None db_users uid :
  next_db_row db_users uid = None ↔ uid ∉ clerk_user_id <$> db_users.
Proof.
  unfold next_db_row. induction db_users as [|r db_users IH]; simpl.
  - split; [by intros _ ?%elem_of_nil|done].
  - rewrite not_elem_of_cons. case_bool_decide as Hr.
    + split; [done|]. by intros [? _].
    + rewrite IH. split; [|by intros [_ ?]].
      intros ?. split; [congruence|done].
Qed.

Lemma next_db_row_is_Some db_users uid :
  is_Some (next_db_row db_users uid) ↔ uid ∈ clerk_user_id <$> db_users.
Proof.
  rewrite <- not_eq_None_Some, next_db_row_None.
  split; [apply dec_stable|by intros ? ?].
Qed.

Lemma next_db_row_NoDup db_users r :
  NoDup (clerk_user_id <$> db_users) →
  r ∈ db_users →
  next_db_row db_users (clerk_user_id r) = Some r.
Proof.
  unfold next_db_row. induction db_users as [|r' db_users IH];
    [by intros _ ?%elem_of_nil|].
  rewrite fmap_cons, NoDup_cons. intros [Hnotin Hnd] Hin. simpl.
  apply elem_of_cons in Hin as [->|Hin].
  - by rewrite bool_decide_eq_true_2.
  - rewrite bool_decide_eq_false_2; [by apply IH|].
    intros Hid. apply Hnotin. rewrite Hid. by apply list_elem_of_fmap_2.
Qed.

Lemma next_db_row_Permutation db_users db_users' uid :
  NoDup (clerk_user_id <$> db_users) →
  db_users ≡ₚ db_users' →
  next_db_row db_users uid = next_db_row db_users' uid.
Proof.
  intros Hnd Hperm.
  assert (NoDup (clerk_user_id <$> db_users')) as Hnd' by by rewrite <- Hperm.
  destruct (next_db_row db_users uid) as [r|] eqn:Hr.
  - apply next_db_row_Some in Hr as [Hin <-]. symmetry.
    apply next_db_row_NoDup; [done|]. by rewrite <- Hperm.
  - symmetry. apply next_db_row_None. rewrite <- Hperm.
    by apply next_db_row_None.
Qed.

Lemma db_ids_of_Permutation db_users db_users' :
  db_users ≡ₚ db_users' → db_ids_of db_users = db_ids_of db_users'.
Proof.
  intros Hperm. apply set_eq. intros uid. unfold db_ids_of.
  by rewrite !elem_of_list_to_set, Hperm.
Qed.

(** ** Report: the sorted union of the ids *)

Lemma str_le_lt a b : String.le a b → a ≠ b → str_lt a b.
Proof.
  unfold String.le, String.leb, str_lt. intros Hle Hne.
  destruct (String.compare a b) eqn:Hc; [|done|done].
  by apply String.compare_eq_iff in Hc.
Qed.

Lemma StronglySorted_le_lt l :
  NoDup l → StronglySorted String.le l → StronglySorted str_lt l.
Proof.
  induction 2 as [|a l Hl IH Hall]; [constructor|].
  apply NoDup_cons in H as [Hnotin Hnd]. constructor; [by apply IH|].
  rewrite Forall_forall in *. intros b Hb. apply str_le_lt; [by apply Hall|].
  by intros ->.
Qed.

Lemma filter_iff_on {A} (P Q : A → Prop) `{!∀ x, Decision (P x)}
    `{!∀ x, Decision (Q x)} (l : list A) :
  (∀ x, x ∈ l → P x ↔ Q x) → filter P l = filter Q l.
Proof.
  induction l as [|a l IH]; intros HPQ; [done|].
  rewrite !filter_cons.
  rewrite IH by (intros x Hx; apply HPQ; by right).
  pose proof (HPQ a ltac:(by left)).
  repeat case_decide; try done; tauto.
Qed.

Section AllIds.
Variable set_iter : gset string → list string.
Hypothesis set_iter_ok : set_iteration set_iter.

Lemma all_ids_of_Permutation clerk_by_id db_ids :
  all_ids_of set_iter clerk_by_id db_ids
  ≡ₚ elements (dom clerk_by_id ∪ db_ids).
Proof.
  unfold all_ids_of, sorted. rewrite merge_sort_Permutation. apply set_iter_ok.
Qed.

Lemma all_ids_of_elem clerk_users db_users uid :
  uid ∈ all_ids_of set_iter (clerk_by_id_of clerk_users) (db_ids_of db_users)
  ↔ uid ∈ user_id <$> clerk_users ∨ uid ∈ clerk_user_id <$> db_users.
Proof.
  rewrite all_ids_of_Permutation, elem_of_elements, elem_of_union.
  rewrite clerk_by_id_of_dom. unfold db_ids_of.
  by rewrite !elem_of_list_to_set.
Qed.

Lemma all_ids_of_NoDup clerk_by_id db_ids :
  NoDup (all_ids_of set_iter clerk_by_id db_ids).
Proof. rewrite all_ids_of_Permutation. apply NoDup_elements. Qed.

Lemma all_ids_of_sorted clerk_by_id db_ids :
  StronglySorted String.le (all_ids_of set_iter clerk_by_id db_ids).
Proof. apply StronglySorted_merge_sort; apply _. Qed.

Lemma all_ids_of_ascending clerk_by_id db_ids :
  StronglySorted str_lt (all_ids_of set_iter clerk_by_id db_ids).
Proof.
  apply StronglySorted_le_lt; [apply all_ids_of_NoDup|apply all_ids_of_sorted].
Qed.

(** Sorting makes the list of ids the same for every iteration order. *)
Lemma all_ids_of_canonical set_iter' clerk_by_id db_ids :
  set_iteration set_iter' →
  all_ids_of set_iter' clerk_by_id db_ids
  = all_ids_of set_iter clerk_by_id db_ids.
Proof.
  intros Hit'. apply (StronglySorted_unique String.le).
  - apply StronglySorted_merge_sort; apply _.
  - apply all_ids_of_sorted.
  - unfold all_ids_of, sorted.
    rewrite !merge_sort_Permutation. by rewrite (set_iter_ok _), (Hit' _).
Qed.
End AllIds.

Lemma set_iteration_elements : set_iteration elements.
Proof. by intros X. Qed.

Lemma set_iteration_reverse : set_iteration (λ X, reverse (elements X)).
Proof. intros X. apply reverse_Permutation. Qed.

(** ** Report: the loop and the summary *)

Lemma io_bind_print {B} s (k : unit → io B) out :
  (print s ≫= k) out = k tt (out ++ [s]).
Proof. reflexivity. Qed.

Lemma io_bind_run {A B} (m : io A) (k : A → io B) out out' a :
  m out = (out', Return a) → (m ≫= k) out = k a out'.
Proof. unfold mbind, io_mbind, io_bind. by intros ->. Qed.

Lemma for_each_ext {A S} (l : list A) (body body' : S → A → io S) :
  (∀ acc x out, body acc x out = body' acc x out) →
  ∀ acc out, for_each l body acc out = for_each l body' acc out.
Proof.
  intros Hbody. induction l as [|x l IH]; intros acc out; [done|].
  simpl. unfold mbind, io_mbind, io_bind. rewrite Hbody.
  destruct (body' acc x out) as [out' [acc'| |]]; [apply IH|done|done].
Qed.

(** The row of an id does not depend on the lists collected so far; an id
    joins [orphaned_db] when the identity index has no entry for it, and
    [unused_clerk] when the index has one and the database has no row. *)
Lemma reconcile_cases clerk_by_id db_users orphaned_db unused_clerk uid :
  reconcile clerk_by_id db_users (orphaned_db, unused_clerk) uid
  = ((reconcile clerk_by_id db_users ([], []) uid).1,
     (orphaned_db ++ (if truthy (clerk_by_id !! uid) then [] else [uid]),
      unused_clerk ++ (if truthy (clerk_by_id !! uid)
                          && negb (truthy (next_db_row db_users uid))
                       then [uid] else []))).
Proof.
  unfold reconcile.
  destruct (clerk_by_id !! uid), (next_db_row db_users uid); simpl;
    by rewrite ?app_nil_r.
Qed.

Lemma truthy_clerk clerk_users uid :
  truthy (clerk_by_id_of clerk_users !! uid) = true
  ↔ uid ∈ user_id <$> clerk_users.
Proof.
  rewrite <- clerk_by_id_of_is_Some.
  destruct (clerk_by_id_of clerk_users !! uid); simpl.
  - split; [by eexists|done].
  - split; [done|by intros [? ?]].
Qed.

Lemma truthy_db_row db_users uid :
  truthy (next_db_row db_users uid) = true
  ↔ uid ∈ clerk_user_id <$> db_users.
Proof.
  rewrite <- next_db_row_is_Some.
  destruct (next_db_row db_users uid); simpl.
  - split; [by eexists|done].
  - split; [done|by intros [? ?]].
Qed.

Section Loop.
Variable clerk_users : list IdentityUser.
Variable db_users : list DatabaseUserSummary.

Lemma report_loop_run l : ∀ orphaned_db unused_clerk out,
  for_each l
    (λ acc uid,
       let '(row, acc') :=
         reconcile (clerk_by_id_of clerk_users) db_users acc uid in
       print (row_line row) ;; mret acc')
    (orphaned_db, unused_clerk) out
  = (out ++ ((λ uid, row_line (reconcile (clerk_by_id_of clerk_users)
                                 db_users ([], []) uid).1) <$> l),
     Return
       (orphaned_db ++ filter (λ uid, uid ∉ user_id <$> clerk_users) l,
        unused_clerk
        ++ filter (λ uid, uid ∈ user_id <$> clerk_users
                          ∧ uid ∉ clerk_user_id <$> db_users) l)).
Proof.
  induction l as [|uid l IH]; intros orphaned_db unused_clerk out.
  - simpl. by rewrite !app_nil_r.
  - cbn [for_each]. rewrite reconcile_cases.
    rewrite io_bind_run with (out' := out ++ [row_line
      (reconcile (clerk_by_id_of clerk_users) db_users ([], []) uid).1])
      (a := (orphaned_db ++ (if truthy (clerk_by_id_of clerk_users !! uid)
                             then [] else [uid]),
             unused_clerk ++ (if truthy (clerk_by_id_of clerk_users !! uid)
                                 && negb (truthy (next_db_row db_users uid))
                              then [uid] else []))) by done.
    rewrite IH, fmap_cons, !filter_cons, <- !app_assoc.
    pose proof (truthy_clerk clerk_users uid) as Hc.
    pose proof (truthy_db_row db_users uid) as Hd.
    destruct (truthy (clerk_by_id_of clerk_users !! uid)),
             (truthy (next_db_row db_users uid));
      repeat case_decide; simpl; try done; exfalso; intuition congruence.
Qed.

Lemma orphaned_loop_run l : ∀ out,
  Forall (λ uid, uid ∈ clerk_user_id <$> db_users) l →
  ∃ lines,
    for_each l
      (λ _ uid,
         match next_db_row db_users uid with
         | Some row => print (orphaned_line uid row)
         | None => raise StopIteration
         end) tt out
    = (out ++ lines, Return tt)
    ∧ Forall2 (λ uid line,
                 ∃ row, next_db_row db_users uid = Some row
                        ∧ line = orphaned_line uid row) l lines.
Proof.
  induction l as [|uid l IH]; intros out Hl.
  - exists []. by rewrite app_nil_r.
  - apply Forall_cons in Hl as [Huid Hl].
    apply next_db_row_is_Some in Huid as [row Hrow].
    destruct (IH (out ++ [orphaned_line uid row]) Hl) as (lines & Hrun & Hlines).
    exists (orphaned_line uid row :: lines). split.
    + cbn [for_each]. rewrite Hrow, io_bind_print, Hrun.
      by rewrite <- app_assoc.
    + constructor; [by exists row|done].
Qed.

Lemma unused_loop_run l : ∀ out,
  Forall (λ uid, uid ∈ user_id <$> clerk_users) l →
  ∃ lines,
    for_each l
      (λ _ uid,
         match clerk_by_id_of clerk_users !! uid with
         | Some clerk => print (unused_line uid (user_email clerk))
         | None => raise KeyError
         end) tt out
    = (out ++ lines, Return tt)
    ∧ Forall2 (λ uid line,
                 ∃ clerk, clerk_by_id_of clerk_users !! uid = Some clerk
                          ∧ line = unused_line uid (user_email clerk)) l lines.
Proof.
  induction l as [|uid l IH]; intros out Hl.
  - exists []. by rewrite app_nil_r.
  - apply Forall_cons in Hl as [Huid Hl].
    apply clerk_by_id_of_is_Some in Huid as [clerk Hclerk].
    destruct (IH (out ++ [unused_line uid (user_email clerk)]) Hl)
      as (lines & Hrun & Hlines).
    exists (unused_line uid (user_email clerk) :: lines). split.
    + cbn [for_each]. rewrite Hclerk, io_bind_print, Hrun.
      by rewrite <- app_assoc.
    + constructor; [by exists clerk|done].
Qed.
End Loop.

Section MainRun.
Variable set_iter : gset string → list string.
Hypothesis set_iter_ok : set_iteration set_iter.
Variable clerk_users : list IdentityUser.
Variable db_users : list DatabaseUserSummary.

(** [main] runs to its end and prints the preamble, one line for each row,
    the counts, the list of orphaned ids or the line that says there is
    none, and the list of unused ids if there is one. *)
Lemma main_run out :
  ∃ orphaned_lines unused_lines,
    let orphaned_db :=
      filter (λ uid, uid ∉ user_id <$> clerk_users)
        (all_ids set_iter clerk_users db_users) in
    let unused_clerk :=
      filter (λ uid, uid ∈ user_id <$> clerk_users
                     ∧ uid ∉ clerk_user_id <$> db_users)
        (all_ids set_iter clerk_users db_users) in
    main set_iter clerk_users db_users out
    = (out ++ preamble
           ++ (row_line <$> report_rows set_iter clerk_users db_users)
           ++ count_lines clerk_users db_users
           ++ match orphaned_db with
              | [] => [no_orphaned_line]
              | _ :: _ => orphaned_heading (length orphaned_db) :: orphaned_lines
              end
           ++ match unused_clerk with
              | [] => []
              | _ :: _ => unused_heading (length unused_clerk) :: unused_lines
              end,
       Return tt)
    ∧ Forall2 (λ uid line,
                 ∃ row, next_db_row db_users uid = Some row
                        ∧ line = orphaned_line uid row)
        orphaned_db orphaned_lines
    ∧ Forall2 (λ uid line,
                 ∃ clerk, clerk_by_id_of clerk_users !! uid = Some clerk
                          ∧ line = unused_line uid (user_email clerk))
        unused_clerk unused_lines.
Proof.
  set (orphaned_db := filter (λ uid, uid ∉ user_id <$> clerk_users)
                        (all_ids set_iter clerk_users db_users)).
  set (unused_clerk :=
         filter (λ uid, uid ∈ user_id <$> clerk_users
                        ∧ uid ∉ clerk_user_id <$> db_users)
           (all_ids set_iter clerk_users db_users)).
  assert (Forall (λ uid, uid ∈ clerk_user_id <$> db_users) orphaned_db) as Ho.
  { apply Forall_forall. intros uid [Hnot Hin]%list_elem_of_filter.
    apply (all_ids_of_elem _ set_iter_ok) in Hin as [?|?]; done. }
  assert (Forall (λ uid, uid ∈ user_id <$> clerk_users) unused_clerk) as Hu.
  { apply Forall_forall. by intros uid [[? _] _]%list_elem_of_filter. }
  set (table := row_line <$> report_rows set_iter clerk_users db_users).
  set (out1 := out ++ preamble ++ table ++ count_lines clerk_users db_users).
  destruct (orphaned_loop_run db_users orphaned_db
              (out1 ++ [orphaned_heading (length orphaned_db)]) Ho)
    as (orphaned_lines & Horun & Holines).
  set (out2 := out1 ++ match orphaned_db with
                       | [] => [no_orphaned_line]
                       | _ :: _ => orphaned_heading (length orphaned_db)
                                    :: orphaned_lines
                       end).
  destruct (unused_loop_run clerk_users unused_clerk
              (out2 ++ [unused_heading (length unused_clerk)]) Hu)
    as (unused_lines & Hurun & Hulines).
  exists orphaned_lines, unused_lines. cbv zeta. split; [|done].
  fold orphaned_db unused_clerk.
  assert ((match orphaned_db with
           | _ :: _ =>
               print (orphaned_heading (length orphaned_db)) ;;
               for_each orphaned_db
                 (λ _ uid,
                    match next_db_row db_users uid with
                    | Some row => print (orphaned_line uid row)
                    | None => raise StopIteration
                    end) tt
           | [] => print no_orphaned_line
           end : io unit) out1 = (out2, Return tt)) as Hopart.
  { unfold out2. destruct orphaned_db as [|uid l]; [done|].
    rewrite io_bind_print, Horun. by rewrite <- app_assoc. }
  assert ((match unused_clerk with
           | _ :: _ =>
               print (unused_heading (length unused_clerk)) ;;
               for_each unused_clerk
                 (λ _ uid,
                    match clerk_by_id_of clerk_users !! uid with
                    | Some clerk => print (unused_line uid (user_email clerk))
                    | None => raise KeyError
                    end) tt
           | [] => mret tt
           end : io unit) out2
          = (out2 ++ match unused_clerk with
                     | [] => []
                     | _ :: _ => unused_heading (length unused_clerk)
                                  :: unused_lines
                     end, Return tt)) as Hupart.
  { destruct unused_clerk as [|uid l]; [by rewrite app_nil_r|].
    rewrite io_bind_print, Hurun. by rewrite <- app_assoc. }
  unfold main. rewrite !io_bind_print.
  erewrite io_bind_run; [|apply report_loop_run].
  cbv beta iota. rewrite !io_bind_print, !app_nil_l.
  fold (all_ids set_iter clerk_users db_users). fold orphaned_db unused_clerk.
  assert (((((((((out ++ ["Fetching Clerk users..."])
                  ++ ["Querying D1 database..."]) ++ [EmptyString])
                ++ [table_header]) ++ [table_rule])
              ++ ((λ uid, row_line (reconcile (clerk_by_id_of clerk_users)
                                      db_users ([], []) uid).1)
                    <$> all_ids set_iter clerk_users db_users))
             ++ [EmptyString])
            ++ ["Clerk users:  " +:+ PyStr.str_len (length clerk_users)])
           ++ ["DB users:     " +:+ PyStr.str_len (length db_users)]
          = out1) as ->.
  { unfold out1, table, preamble, count_lines, report_rows.
    rewrite <- list_fmap_compose. by rewrite <- !app_assoc. }
  rewrite (io_bind_run _ _ _ _ _ Hopart), Hupart. f_equal.
  unfold out2, out1. by rewrite <- !app_assoc.
Qed.
End MainRun.

(** ** Report: what the output depends on *)

Lemma io_bind_ext {A B} (m m' : io A) (k k' : A → io B) out :
  m out = m' out →
  (∀ a out', k a out' = k' a out') →
  (m ≫= k) out = (m' ≫= k') out.
Proof.
  intros Hm Hk. unfold mbind, io_mbind, io_bind. rewrite Hm.
  destruct (m' out) as [out' [a| |]]; [apply Hk|done|done].
Qed.

Lemma reconcile_ext clerk_by_id db_users db_users' acc uid :
  (∀ uid, next_db_row db_users uid = next_db_row db_users' uid) →
  reconcile clerk_by_id db_users acc uid
  = reconcile clerk_by_id db_users' acc uid.
Proof. intros Hnext. unfold reconcile. by rewrite Hnext. Qed.

(** The output of [main] is determined by the identity index, the sorted
    list of ids, the row found for each id and the lengths of the lists. *)
Lemma main_ext set_iter set_iter' clerk_users clerk_users' db_users db_users'
    out :
  clerk_by_id_of clerk_users = clerk_by_id_of clerk_users' →
  all_ids set_iter clerk_users db_users
  = all_ids set_iter' clerk_users' db_users' →
  (∀ uid, next_db_row db_users uid = next_db_row db_users' uid) →
  length clerk_users = length clerk_users' →
  length db_users = length db_users' →
  main set_iter clerk_users db_users out
  = main set_iter' clerk_users' db_users' out.
Proof.
  intros Hcb Hids Hnext Hlc Hld. unfold all_ids in Hids. unfold main.
  rewrite !io_bind_print, <- Hids, <- Hcb, <- Hlc, <- Hld.
  apply io_bind_ext.
  - apply for_each_ext. intros acc uid out'.
    by rewrite (reconcile_ext _ db_users db_users').
  - intros [orphaned_db unused_clerk] out'.
    rewrite !io_bind_print. apply io_bind_ext; [|done].
    destruct orphaned_db as [|uid l]; [done|].
    rewrite !io_bind_print. apply for_each_ext. intros [] uid' out''.
    by rewrite Hnext.
Qed.

Lemma elem_of_report_rows set_iter clerk_users db_users row :
  row ∈ report_rows set_iter clerk_users db_users
  ↔ ∃ uid, uid ∈ all_ids set_iter clerk_users db_users
           ∧ row = (reconcile (clerk_by_id_of clerk_users) db_users
                      ([], []) uid).1.
Proof.
  unfold report_rows. rewrite list_elem_of_fmap.
  split; intros (uid & ? & ?); by exists uid.
Qed.

Lemma report_rows_uids set_iter clerk_users db_users :
  row_uid <$> report_rows set_iter clerk_users db_users
  = all_ids set_iter clerk_users db_users.
Proof.
  unfold report_rows. rewrite <- list_fmap_compose.
  rewrite <- (list_fmap_id (all_ids _ _ _)) at 2.
  apply list_fmap_ext. intros _ uid _. simpl. unfold reconcile.
  by destruct (clerk_by_id_of clerk_users !! uid), (next_db_row db_users uid).
Qed.

(** ** Report: the rows *)

Lemma report_row_status clerk_users db_users uid :
  row_status (reconcile (clerk_by_id_of clerk_users) db_users ([], []) uid).1
  = if decide (uid ∈ user_id <$> clerk_users) then
      if decide (uid ∈ clerk_user_id <$> db_users) then "ok" else "NO DB DATA"
    else "** ORPHANED DB DATA **".
Proof.
  pose proof (truthy_clerk clerk_users uid) as Hc.
  pose proof (truthy_db_row db_users uid) as Hd.
  unfold reconcile.
  destruct (truthy (clerk_by_id_of clerk_users !! uid)),
           (truthy (next_db_row db_users uid));
    repeat case_decide; simpl; try done; exfalso; intuition congruence.
Qed.

Lemma report_row_uid clerk_by_id db_users uid :
  row_uid (reconcile clerk_by_id db_users ([], []) uid).1 = uid.
Proof.
  unfold reconcile.
  by destruct (clerk_by_id !! uid), (next_db_row db_users uid).
Qed.

Lemma report_row_db clerk_by_id db_users uid :
  let row := (reconcile clerk_by_id db_users ([], []) uid).1 in
  match next_db_row db_users uid with
  | Some r =>
      row_trips row = trip_count r ∧ row_items row = master_item_count r
      ∧ row_cats row = category_count r ∧ row_tmpls row = bag_template_count r
  | None =>
      row_trips row = 0 ∧ row_items row = 0
      ∧ row_cats row = 0 ∧ row_tmpls row = 0
  end.
Proof.
  unfold reconcile.
  by destruct (clerk_by_id !! uid), (next_db_row db_users uid).
Qed.

Lemma report_row_email clerk_by_id db_users uid :
  row_email (reconcile clerk_by_id db_users ([], []) uid).1
  = match clerk_by_id !! uid with
    | Some clerk => user_email clerk
    | None => EmptyString
    end.
Proof.
  unfold reconcile.
  by destruct (clerk_by_id !! uid), (next_db_row db_users uid).
Qed.

(** ** Report: what [main] prints *)

(** The whole output of [main], with every format written out: the two
    progress lines, a blank line, the header and the rule of the table, one
    line for each row, a blank line and the two counts, the list of orphaned
    ids under its heading or the line that says there is none, and the list
    of unused ids under its heading when there is one. *)
Lemma main_prints set_iter clerk_users db_users :
  set_iteration set_iter →
  ∃ orphaned_lines unused_lines,
    let orphaned_db :=
      filter (λ uid, uid ∉ user_id <$> clerk_users)
        (all_ids set_iter clerk_users db_users) in
    let unused_clerk :=
      filter (λ uid, uid ∈ user_id <$> clerk_users
                     ∧ uid ∉ clerk_user_id <$> db_users)
        (all_ids set_iter clerk_users db_users) in
    main set_iter clerk_users db_users []
    = (["Fetching Clerk users..."; "Querying D1 database..."; EmptyString;
        "USER_ID                              EMAIL                               TRIPS ITEMS CATS TMPL  STATUS";
        "------------------------------------ ----------------------------------- ----- ----- ---- ----  --------------------"]
         ++ ((λ row : ReconciliationRow,
               PyStr.ljust 36 (row_uid row) +:+ " "
               +:+ PyStr.ljust 35 (row_email row) +:+ " "
               +:+ PyStr.rjust 5 (PyStr.str_int (row_trips row)) +:+ " "
               +:+ PyStr.rjust 5 (PyStr.str_int (row_items row)) +:+ " "
               +:+ PyStr.rjust 4 (PyStr.str_int (row_cats row)) +:+ " "
               +:+ PyStr.rjust 4 (PyStr.str_int (row_tmpls row)) +:+ "  "
               +:+ row_status row)
               <$> report_rows set_iter clerk_users db_users)
         ++ [EmptyString;
          "Clerk users:  " +:+ PyStr.str_len (length clerk_users);
          "DB users:     " +:+ PyStr.str_len (length db_users)]
         ++ match orphaned_db with
            | [] =>
                [String "010"%char EmptyString
                 +:+ "No orphaned DB data found -- all DB users have Clerk accounts."]
            | _ :: _ =>
                (String "010"%char EmptyString
                 +:+ "Orphaned DB users (no Clerk account): "
                 +:+ PyStr.str_len (length orphaned_db))
                  :: orphaned_lines
            end
         ++ match unused_clerk with
            | [] => []
            | _ :: _ =>
                (String "010"%char EmptyString
                 +:+ "Clerk users with no DB data: "
                 +:+ PyStr.str_len (length unused_clerk))
                  :: unused_lines
            end,
       Return tt)
    ∧ Forall2 (λ uid line,
                 ∃ row, next_db_row db_users uid = Some row
                        ∧ row ∈ db_users ∧ clerk_user_id row = uid
                        ∧ line = "  " +:+ uid +:+ "  ("
                                 +:+ PyStr.str_int (trip_count row)
                                 +:+ " trips, "
                                 +:+ PyStr.str_int (master_item_count row)
                                 +:+ " items)")
        orphaned_db orphaned_lines
    ∧ Forall2 (λ uid line,
                 ∃ clerk, clerk_by_id_of clerk_users !! uid = Some clerk
                          ∧ clerk ∈ clerk_users ∧ user_id clerk = uid
                          ∧ line = "  " +:+ uid +:+ "  ("
                                   +:+ user_email clerk +:+ ")")
        unused_clerk unused_lines.
Proof.
  intros Hit.
  destruct (main_run set_iter Hit clerk_users db_users [])
    as (orphaned_lines & unused_lines & Hrun & Ho & Hu).
  exists orphaned_lines, unused_lines. cbv zeta in *.
  split; [exact Hrun|]. split.
  - eapply Forall2_impl; [exact Ho|]. intros uid line (row & Hrow & ->).
    exists row. by destruct (next_db_row_Some _ _ _ Hrow).
  - eapply Forall2_impl; [exact Hu|]. intros uid line (clerk & Hclerk & ->).
    exists clerk. by destruct (clerk_by_id_of_Some _ _ _ Hclerk).
Qed.

(** The table alone: what comes before it, its lines, and the blank line and
    the counts that follow it. *)
Lemma main_prints_table set_iter clerk_users db_users :
  set_iteration set_iter →
  let line :=
    (λ row : ReconciliationRow,
       PyStr.ljust 36 (row_uid row) +:+ " "
       +:+ PyStr.ljust 35 (row_email row) +:+ " "
       +:+ PyStr.rjust 5 (PyStr.str_int (row_trips row)) +:+ " "
       +:+ PyStr.rjust 5 (PyStr.str_int (row_items row)) +:+ " "
       +:+ PyStr.rjust 4 (PyStr.str_int (row_cats row)) +:+ " "
       +:+ PyStr.rjust 4 (PyStr.str_int (row_tmpls row)) +:+ "  "
       +:+ row_status row) in
  (∃ summary,
     main set_iter clerk_users db_users []
     = (preamble
          ++ (line <$> report_rows set_iter clerk_users db_users)
          ++ [EmptyString;
          "Clerk users:  " +:+ PyStr.str_len (length clerk_users);
          "DB users:     " +:+ PyStr.str_len (length db_users)]
          ++ summary,
        Return tt)).
Proof.
  intros Hit line.
  destruct (main_run set_iter Hit clerk_users db_users [])
    as (orphaned_lines & unused_lines & Hrun & _).
  cbv zeta in Hrun. eexists. exact Hrun.
Qed.

(** C1: [main] prints one line for each row of the report, with the status
    of the row at its end, and every id of the identity users or of the
    database summaries has exactly one row, which says [ok] exactly when the
    id is on both sides, [NO DB DATA] exactly when it is among the identity
    users only, and [** ORPHANED DB DATA **] exactly when it is among the
    database summaries only. *)
Theorem report_rows_classification set_iter clerk_users db_users :
  set_iteration set_iter →
  let line :=
    (λ row : ReconciliationRow,
       PyStr.ljust 36 (row_uid row) +:+ " "
       +:+ PyStr.ljust 35 (row_email row) +:+ " "
       +:+ PyStr.rjust 5 (PyStr.str_int (row_trips row)) +:+ " "
       +:+ PyStr.rjust 5 (PyStr.str_int (row_items row)) +:+ " "
       +:+ PyStr.rjust 4 (PyStr.str_int (row_cats row)) +:+ " "
       +:+ PyStr.rjust 4 (PyStr.str_int (row_tmpls row)) +:+ "  "
       +:+ row_status row) in
  (∃ summary,
     main set_iter clerk_users db_users []
     = (preamble
          ++ (line <$> report_rows set_iter clerk_users db_users)
          ++ [EmptyString;
          "Clerk users:  " +:+ PyStr.str_len (length clerk_users);
          "DB users:     " +:+ PyStr.str_len (length db_users)]
          ++ summary,
        Return tt))
  ∧ ∀ uid,
      uid ∈ user_id <$> clerk_users ∨ uid ∈ clerk_user_id <$> db_users →
      ∃ row,
        row ∈ report_rows set_iter clerk_users db_users
        ∧ row_uid row = uid
        ∧ (∀ row', row' ∈ report_rows set_iter clerk_users db_users →
                   row_uid row' = uid → row' = row)
        ∧ (row_status row = "ok"
           ↔ uid ∈ user_id <$> clerk_users ∧ uid ∈ clerk_user_id <$> db_users)
        ∧ (row_status row = "NO DB DATA"
           ↔ uid ∈ user_id <$> clerk_users ∧ uid ∉ clerk_user_id <$> db_users)
        ∧ (row_status row = "** ORPHANED DB DATA **"
           ↔ (uid ∉ user_id <$> clerk_users)
             ∧ uid ∈ clerk_user_id <$> db_users).
Proof.
  intros Hit line. split; [by apply main_prints_table|]. intros uid Hin.
  exists (reconcile (clerk_by_id_of clerk_users) db_users ([], []) uid).1.
  split; [|split; [|split]].
  - apply elem_of_report_rows. exists uid. split; [|done].
    by apply all_ids_of_elem.
  - apply report_row_uid.
  - intros row' (uid' & _ & ->)%elem_of_report_rows.
    rewrite report_row_uid. by intros ->.
  - rewrite report_row_status. repeat case_decide; intuition congruence.
Qed.

Lemma report_rows_classification_witness :
  (∃ summary,
     main elements sample_clerk_users sample_db_users []
     = (preamble
          ++ ["user_a                               a@x.com                                 1     0    2    0  ok";
              "user_b                               b@x.com                                 0     0    0    0  NO DB DATA";
              "user_c                                                                       3    12    4    1  ** ORPHANED DB DATA **"]
          ++ [EmptyString; "Clerk users:  2"; "DB users:     2"]
          ++ summary,
        Return tt))
  ∧ ∃ row,
      row ∈ report_rows elements sample_clerk_users sample_db_users
      ∧ row_uid row = "user_c"
      ∧ row_status row = "** ORPHANED DB DATA **".
Proof.
  destruct (report_rows_classification elements sample_clerk_users
              sample_db_users) as [Hmain Hrows].
  - intros X. reflexivity.
  - split; [exact Hmain|].
    destruct (Hrows "user_c") as (row & Hrow & Huid & _ & _ & _ & Hstatus).
    + right. vm_compute. left.
    + exists row. split; [done|]. split; [done|]. apply Hstatus. split.
      * apply (bool_decide_unpack _). vm_compute. exact I.
      * vm_compute. left.
Defined.

(** C2: the table has exactly one row for each id of the union of the
    identity ids and the database ids: the ids of the rows are distinct, an
    id has a row exactly when it is in the union, and [main] prints one line
    for each row, and no other line, between the rule of the table and the
    blank line before the counts; all that it prints after the table is the
    summary. *)
Theorem report_rows_union set_iter clerk_users db_users :
  set_iteration set_iter →
  NoDup (row_uid <$> report_rows set_iter clerk_users db_users)
  ∧ (∀ uid, uid ∈ (row_uid <$> report_rows set_iter clerk_users db_users)
            ↔ uid ∈ user_id <$> clerk_users ∨ uid ∈ clerk_user_id <$> db_users)
  ∧ length (report_rows set_iter clerk_users db_users)
    = size (list_to_set (user_id <$> clerk_users)
            ∪ list_to_set (clerk_user_id <$> db_users) : gset string)
  ∧ ∃ orphaned_lines unused_lines,
      let orphaned_db :=
        filter (λ uid, uid ∉ user_id <$> clerk_users)
          (all_ids set_iter clerk_users db_users) in
      let unused_clerk :=
        filter (λ uid, uid ∈ user_id <$> clerk_users
                       ∧ uid ∉ clerk_user_id <$> db_users)
          (all_ids set_iter clerk_users db_users) in
      main set_iter clerk_users db_users []
      = (["Fetching Clerk users..."; "Querying D1 database..."; EmptyString;
          "USER_ID                              EMAIL                               TRIPS ITEMS CATS TMPL  STATUS";
          "------------------------------------ ----------------------------------- ----- ----- ---- ----  --------------------"]
           ++ ((λ row : ReconciliationRow,
                 PyStr.ljust 36 (row_uid row) +:+ " "
                 +:+ PyStr.ljust 35 (row_email row) +:+ " "
                 +:+ PyStr.rjust 5 (PyStr.str_int (row_trips row)) +:+ " "
                 +:+ PyStr.rjust 5 (PyStr.str_int (row_items row)) +:+ " "
                 +:+ PyStr.rjust 4 (PyStr.str_int (row_cats row)) +:+ " "
                 +:+ PyStr.rjust 4 (PyStr.str_int (row_tmpls row)) +:+ "  "
                 +:+ row_status row)
                 <$> report_rows set_iter clerk_users db_users)
           ++ [EmptyString;
            "Clerk users:  " +:+ PyStr.str_len (length clerk_users);
            "DB users:     " +:+ PyStr.str_len (length db_users)]
           ++ match orphaned_db with
              | [] =>
                  [String "010"%char EmptyString
                   +:+ "No orphaned DB data found -- all DB users have Clerk accounts."]
              | _ :: _ =>
                  (String "010"%char EmptyString
                   +:+ "Orphaned DB users (no Clerk account): "
                   +:+ PyStr.str_len (length orphaned_db))
                    :: orphaned_lines
              end
           ++ match unused_clerk with
              | [] => []
              | _ :: _ =>
                  (String "010"%char EmptyString
                   +:+ "Clerk users with no DB data: "
                   +:+ PyStr.str_len (length unused_clerk))
                    :: unused_lines
              end,
         Return tt)
      ∧ Forall2 (λ uid line,
                   ∃ row, next_db_row db_users uid = Some row
                          ∧ row ∈ db_users ∧ clerk_user_id row = uid
                          ∧ line = "  " +:+ uid +:+ "  ("
                                   +:+ PyStr.str_int (trip_count row)
                                   +:+ " trips, "
                                   +:+ PyStr.str_int (master_item_count row)
                                   +:+ " items)")
          orphaned_db orphaned_lines
      ∧ Forall2 (λ uid line,
                   ∃ clerk, clerk_by_id_of clerk_users !! uid = Some clerk
                            ∧ clerk ∈ clerk_users ∧ user_id clerk = uid
                            ∧ line = "  " +:+ uid +:+ "  ("
                                     +:+ user_email clerk +:+ ")")
          unused_clerk unused_lines.
Proof.
  intros Hit. rewrite report_rows_uids. unfold all_ids.
  split; [by apply all_ids_of_NoDup|]. split; [|split].
  - intros uid. by apply all_ids_of_elem.
  - rewrite <- (length_fmap row_uid), report_rows_uids. unfold all_ids.
    rewrite (all_ids_of_Permutation _ Hit), clerk_by_id_of_dom. done.
  - by apply main_prints.
Qed.

Lemma report_rows_union_witness :
  NoDup (row_uid <$> report_rows elements sample_clerk_users sample_db_users)
  ∧ length (report_rows elements sample_clerk_users sample_db_users)
    = size (list_to_set (user_id <$> sample_clerk_users)
            ∪ list_to_set (clerk_user_id <$> sample_db_users) : gset string)
  ∧ ∃ orphaned_lines unused_lines,
      main elements sample_clerk_users sample_db_users []
      = (preamble
           ++ ["user_a                               a@x.com                                 1     0    2    0  ok";
               "user_b                               b@x.com                                 0     0    0    0  NO DB DATA";
               "user_c                                                                       3    12    4    1  ** ORPHANED DB DATA **"]
           ++ [EmptyString; "Clerk users:  2"; "DB users:     2"]
           ++ (orphaned_heading 1 :: orphaned_lines)
           ++ (unused_heading 1 :: unused_lines),
         Return tt).
Proof.
  destruct (report_rows_union elements sample_clerk_users sample_db_users)
    as (Hnodup & _ & Hlength & orphaned_lines & unused_lines & Hmain & _).
  - intros X. reflexivity.
  - split; [exact Hnodup|]. split; [exact Hlength|].
    exists orphaned_lines, unused_lines. exact Hmain.
Defined.

(** C3: the lines of the table are those of the rows in strictly ascending
    order of their ids, whatever the lists are; and when the ids of each list
    are distinct, the rows, and all that [main] prints, stay the same when
    either list is permuted and when sets are iterated in another order. *)
Theorem report_rows_order set_iter clerk_users db_users :
  set_iteration set_iter →
  let line :=
    (λ row : ReconciliationRow,
       PyStr.ljust 36 (row_uid row) +:+ " "
       +:+ PyStr.ljust 35 (row_email row) +:+ " "
       +:+ PyStr.rjust 5 (PyStr.str_int (row_trips row)) +:+ " "
       +:+ PyStr.rjust 5 (PyStr.str_int (row_items row)) +:+ " "
       +:+ PyStr.rjust 4 (PyStr.str_int (row_cats row)) +:+ " "
       +:+ PyStr.rjust 4 (PyStr.str_int (row_tmpls row)) +:+ "  "
       +:+ row_status row) in
  StronglySorted str_lt
    (row_uid <$> report_rows set_iter clerk_users db_users)
  ∧ (∃ summary,
     main set_iter clerk_users db_users []
     = (preamble
          ++ (line <$> report_rows set_iter clerk_users db_users)
          ++ [EmptyString;
          "Clerk users:  " +:+ PyStr.str_len (length clerk_users);
          "DB users:     " +:+ PyStr.str_len (length db_users)]
          ++ summary,
        Return tt))
  ∧ ∀ set_iter' clerk_users' db_users',
      set_iteration set_iter' →
      NoDup (user_id <$> clerk_users) →
      NoDup (clerk_user_id <$> db_users) →
      clerk_users ≡ₚ clerk_users' →
      db_users ≡ₚ db_users' →
      report_rows set_iter' clerk_users' db_users'
      = report_rows set_iter clerk_users db_users
      ∧ main set_iter' clerk_users' db_users' []
        = main set_iter clerk_users db_users [].
Proof.
  intros Hit line. split; [|split].
  - rewrite report_rows_uids. by apply all_ids_of_ascending.
  - by apply main_prints_table.
  - intros set_iter' clerk_users' db_users' Hit' Hndc Hndd Hpc Hpd.
    assert (clerk_by_id_of clerk_users = clerk_by_id_of clerk_users') as Hcb
      by by apply clerk_by_id_of_Permutation.
    assert (all_ids set_iter clerk_users db_users
            = all_ids set_iter' clerk_users' db_users') as Hids.
    { unfold all_ids. rewrite <- Hcb, <- (db_ids_of_Permutation _ _ Hpd).
      symmetry. by apply all_ids_of_canonical. }
    assert (∀ uid, next_db_row db_users uid = next_db_row db_users' uid)
      as Hnext by (intros uid; by apply next_db_row_Permutation).
    split.
    + unfold report_rows. rewrite <- Hids, <- Hcb.
      apply list_fmap_ext. intros _ uid _.
      by rewrite (reconcile_ext _ db_users' db_users).
    + symmetry. apply main_ext; try done; by apply Permutation_length.
Qed.

Lemma report_rows_order_witness :
  StronglySorted str_lt
    (row_uid <$> report_rows elements sample_clerk_users sample_db_users)
  ∧ report_rows (λ X, reverse (elements X))
      (reverse sample_clerk_users) (reverse sample_db_users)
    = report_rows elements sample_clerk_users sample_db_users
  ∧ main (λ X, reverse (elements X))
      (reverse sample_clerk_users) (reverse sample_db_users) []
    = main elements sample_clerk_users sample_db_users [].
Proof.
  destruct (report_rows_order elements sample_clerk_users sample_db_users)
    as (Hsorted & _ & Hsame).
  - intros X. reflexivity.
  - split; [exact Hsorted|].
    apply (Hsame (λ X, reverse (elements X)) (reverse sample_clerk_users)
             (reverse sample_db_users)).
    + intros X. apply reverse_Permutation.
    + apply (bool_decide_unpack _). vm_compute. exact I.
    + apply (bool_decide_unpack _). vm_compute. exact I.
    + symmetry. apply reverse_Permutation.
    + symmetry. apply reverse_Permutation.
Defined.

(** C4: [main] prints one line for each row, with the email and the four
    counts of the row in its columns; the row of an id that only the database
    has shows the four counts of its database summary and an empty email
    column; the row of an id that only the identity provider has shows four
    zeros. *)
Theorem report_rows_counts set_iter clerk_users db_users :
  set_iteration set_iter →
  let line :=
    (λ row : ReconciliationRow,
       PyStr.ljust 36 (row_uid row) +:+ " "
       +:+ PyStr.ljust 35 (row_email row) +:+ " "
       +:+ PyStr.rjust 5 (PyStr.str_int (row_trips row)) +:+ " "
       +:+ PyStr.rjust 5 (PyStr.str_int (row_items row)) +:+ " "
       +:+ PyStr.rjust 4 (PyStr.str_int (row_cats row)) +:+ " "
       +:+ PyStr.rjust 4 (PyStr.str_int (row_tmpls row)) +:+ "  "
       +:+ row_status row) in
  (∃ summary,
     main set_iter clerk_users db_users []
     = (preamble
          ++ (line <$> report_rows set_iter clerk_users db_users)
          ++ [EmptyString;
          "Clerk users:  " +:+ PyStr.str_len (length clerk_users);
          "DB users:     " +:+ PyStr.str_len (length db_users)]
          ++ summary,
        Return tt))
  ∧ ∀ row,
      row ∈ report_rows set_iter clerk_users db_users →
      (row_uid row ∉ user_id <$> clerk_users →
       row_uid row ∈ clerk_user_id <$> db_users →
       ∃ r, next_db_row db_users (row_uid row) = Some r
            ∧ r ∈ db_users ∧ clerk_user_id r = row_uid row
            ∧ row_email row = EmptyString
            ∧ row_trips row = trip_count r
            ∧ row_items row = master_item_count r
            ∧ row_cats row = category_count r
            ∧ row_tmpls row = bag_template_count r
            ∧ line row
              = PyStr.ljust 36 (row_uid row) +:+ " " +:+ PyStr.spaces 35
                +:+ " "
                +:+ PyStr.rjust 5 (PyStr.str_int (trip_count r)) +:+ " "
                +:+ PyStr.rjust 5 (PyStr.str_int (master_item_count r)) +:+ " "
                +:+ PyStr.rjust 4 (PyStr.str_int (category_count r)) +:+ " "
                +:+ PyStr.rjust 4 (PyStr.str_int (bag_template_count r))
                +:+ "  ** ORPHANED DB DATA **")
      ∧ (row_uid row ∈ user_id <$> clerk_users →
         row_uid row ∉ clerk_user_id <$> db_users →
         row_trips row = 0 ∧ row_items row = 0
         ∧ row_cats row = 0 ∧ row_tmpls row = 0
         ∧ line row
           = PyStr.ljust 36 (row_uid row) +:+ " "
             +:+ PyStr.ljust 35 (row_email row)
             +:+ "     0     0    0    0  NO DB DATA").
Proof.
  intros Hit line. split; [by apply main_prints_table|].
  intros row (uid & _ & ->)%elem_of_report_rows. rewrite report_row_uid.
  pose proof (report_row_db (clerk_by_id_of clerk_users) db_users uid) as Hdb.
  pose proof (report_row_email (clerk_by_id_of clerk_users) db_users uid) as He.
  pose proof (report_row_status clerk_users db_users uid) as Hs.
  pose proof (report_row_uid (clerk_by_id_of clerk_users) db_users uid) as Hu.
  cbv zeta in Hdb. unfold line.
  set (row := (reconcile (clerk_by_id_of clerk_users) db_users ([], []) uid).1) in *.
  split.
  - intros Hnc Hd. apply next_db_row_is_Some in Hd as [r Hr].
    rewrite Hr in Hdb. destruct Hdb as (Ht & Hi & Hca & Htm).
    apply clerk_by_id_of_None in Hnc. rewrite Hnc in He.
    destruct (next_db_row_Some _ _ _ Hr) as [Hin Hid].
    exists r. repeat (split; [done|]).
    rewrite Hu, He, Ht, Hi, Hca, Htm, Hs.
    rewrite decide_False; [done|]. by apply clerk_by_id_of_None.
  - intros Hc Hnd. apply next_db_row_None in Hnd as Hr.
    rewrite Hr in Hdb. destruct Hdb as (Ht & Hi & Hca & Htm).
    repeat (split; [done|]).
    rewrite Hu, Ht, Hi, Hca, Htm, Hs.
    rewrite decide_True, decide_False by done. done.
Qed.

Lemma report_rows_counts_witness :
  (∃ summary,
     main elements sample_clerk_users sample_db_users []
     = (preamble
          ++ ["user_a                               a@x.com                                 1     0    2    0  ok";
              "user_b                               b@x.com                                 0     0    0    0  NO DB DATA";
              "user_c                                                                       3    12    4    1  ** ORPHANED DB DATA **"]
          ++ [EmptyString; "Clerk users:  2"; "DB users:     2"]
          ++ summary,
        Return tt))
  ∧ ∃ r, next_db_row sample_db_users (row_uid sample_row) = Some r
         ∧ r ∈ sample_db_users ∧ clerk_user_id r = row_uid sample_row
         ∧ row_email sample_row = EmptyString
         ∧ row_trips sample_row = trip_count r
         ∧ row_items sample_row = master_item_count r
         ∧ row_cats sample_row = category_count r
         ∧ row_tmpls sample_row = bag_template_count r.
Proof.
  destruct (report_rows_counts elements sample_clerk_users sample_db_users)
    as [Hmain Hrows].
  - intros X. reflexivity.
  - split; [exact Hmain|].
    destruct (Hrows sample_row) as [Hdb _].
    + apply list_elem_of_In. vm_compute. auto.
    + destruct Hdb as (r & Hr & Hin & Hid & He & Ht & Hi & Hc & Htm & _).
      * apply (bool_decide_unpack _). vm_compute. exact I.
      * apply (bool_decide_unpack _). vm_compute. exact I.
      * exists r. done.
Defined.

(** C8: on the same lists of identity users and database summaries two
    runs print the same text, whatever order each of them iterates its sets
    in, and both run to their end. *)
Theorem report_deterministic set_iter1 set_iter2 clerk_users db_users :
  set_iteration set_iter1 →
  set_iteration set_iter2 →
  main set_iter1 clerk_users db_users [] = main set_iter2 clerk_users db_users []
  ∧ console (main set_iter1 clerk_users db_users []).1
    = console (main set_iter2 clerk_users db_users []).1
  ∧ (main set_iter1 clerk_users db_users []).2 = Return tt.
Proof.
  intros Hit1 Hit2.
  assert (main set_iter1 clerk_users db_users []
          = main set_iter2 clerk_users db_users []) as Hmain.
  { apply main_ext; try done. unfold all_ids.
    symmetry. by apply all_ids_of_canonical. }
  split; [done|]. split; [by rewrite Hmain|].
  destruct (main_run set_iter1 Hit1 clerk_users db_users [])
    as (? & ? & Hrun & _).
  cbv zeta in Hrun. by rewrite Hrun.
Qed.

Lemma report_deterministic_witness :
  main elements sample_clerk_users sample_db_users []
  = main (λ X, reverse (elements X)) sample_clerk_users sample_db_users []
  ∧ console (main elements sample_clerk_users sample_db_users []).1
    = console (main (λ X, reverse (elements X))
                 sample_clerk_users sample_db_users []).1
  ∧ (main elements sample_clerk_users sample_db_users []).2 = Return tt.
Proof.
  apply (report_deterministic elements (λ X, reverse (elements X))
           sample_clerk_users sample_db_users).
  - intros X. reflexivity.
  - intros X. apply reverse_Permutation.
Defined.

(** C9: after the table and the two counts, [main] lists the orphaned ids,
    each on a line with the trip and item counts of its database summary,
    under a heading with their number, or prints the line that says none was
    found; then it lists the unused ids, each on a line with its email, under
    a heading with their number, and prints nothing at all when there is
    none. *)
Theorem report_summary set_iter clerk_users db_users :
  set_iteration set_iter →
  ∃ orphaned_lines unused_lines,
    let orphaned_db :=
      filter (λ uid, uid ∈ clerk_user_id <$> db_users
                     ∧ uid ∉ user_id <$> clerk_users)
        (all_ids set_iter clerk_users db_users) in
    let unused_clerk :=
      filter (λ uid, uid ∈ user_id <$> clerk_users
                     ∧ uid ∉ clerk_user_id <$> db_users)
        (all_ids set_iter clerk_users db_users) in
    main set_iter clerk_users db_users []
    = (["Fetching Clerk users..."; "Querying D1 database..."; EmptyString;
        "USER_ID                              EMAIL                               TRIPS ITEMS CATS TMPL  STATUS";
        "------------------------------------ ----------------------------------- ----- ----- ---- ----  --------------------"]
         ++ ((λ row : ReconciliationRow,
               PyStr.ljust 36 (row_uid row) +:+ " "
               +:+ PyStr.ljust 35 (row_email row) +:+ " "
               +:+ PyStr.rjust 5 (PyStr.str_int (row_trips row)) +:+ " "
               +:+ PyStr.rjust 5 (PyStr.str_int (row_items row)) +:+ " "
               +:+ PyStr.rjust 4 (PyStr.str_int (row_cats row)) +:+ " "
               +:+ PyStr.rjust 4 (PyStr.str_int (row_tmpls row)) +:+ "  "
               +:+ row_status row)
               <$> report_rows set_iter clerk_users db_users)
         ++ [EmptyString;
          "Clerk users:  " +:+ PyStr.str_len (length clerk_users);
          "DB users:     " +:+ PyStr.str_len (length db_users)]
         ++ match orphaned_db with
            | [] =>
                [String "010"%char EmptyString
                 +:+ "No orphaned DB data found -- all DB users have Clerk accounts."]
            | _ :: _ =>
                (String "010"%char EmptyString
                 +:+ "Orphaned DB users (no Clerk account): "
                 +:+ PyStr.str_len (length orphaned_db))
                  :: orphaned_lines
            end
         ++ match unused_clerk with
            | [] => []
            | _ :: _ =>
                (String "010"%char EmptyString
                 +:+ "Clerk users with no DB data: "
                 +:+ PyStr.str_len (length unused_clerk))
                  :: unused_lines
            end,
       Return tt)
    ∧ Forall2 (λ uid line,
                 ∃ row, next_db_row db_users uid = Some row
                        ∧ row ∈ db_users ∧ clerk_user_id row = uid
                        ∧ line = "  " +:+ uid +:+ "  ("
                                 +:+ PyStr.str_int (trip_count row)
                                 +:+ " trips, "
                                 +:+ PyStr.str_int (master_item_count row)
                                 +:+ " items)")
        orphaned_db orphaned_lines
    ∧ Forall2 (λ uid line,
                 ∃ clerk, clerk_by_id_of clerk_users !! uid = Some clerk
                          ∧ clerk ∈ clerk_users ∧ user_id clerk = uid
                          ∧ line = "  " +:+ uid +:+ "  ("
                                   +:+ user_email clerk +:+ ")")
        unused_clerk unused_lines.
Proof.
  intros Hit.
  destruct (main_prints set_iter clerk_users db_users Hit)
    as (orphaned_lines & unused_lines & Hrun & Ho & Hu).
  exists orphaned_lines, unused_lines. cbv zeta in *.
  rewrite (filter_iff_on
             (λ uid, uid ∈ clerk_user_id <$> db_users
                     ∧ uid ∉ user_id <$> clerk_users)
             (λ uid, uid ∉ user_id <$> clerk_users)).
  - done.
  - intros uid Hin. apply (all_ids_of_elem _ Hit) in Hin. tauto.
Qed.

Lemma report_summary_witness :
  ∃ orphaned_lines unused_lines,
    main elements sample_clerk_users sample_db_users []
    = (preamble
         ++ ["user_a                               a@x.com                                 1     0    2    0  ok";
             "user_b                               b@x.com                                 0     0    0    0  NO DB DATA";
             "user_c                                                                       3    12    4    1  ** ORPHANED DB DATA **"]
         ++ [EmptyString; "Clerk users:  2"; "DB users:     2"]
         ++ ((String "010"%char EmptyString
              +:+ "Orphaned DB users (no Clerk account): 1") :: orphaned_lines)
         ++ ((String "010"%char EmptyString
              +:+ "Clerk users with no DB data: 1") :: unused_lines),
       Return tt)
    ∧ Forall2 (λ uid line,
                 ∃ row, next_db_row sample_db_users uid = Some row
                        ∧ row ∈ sample_db_users ∧ clerk_user_id row = uid
                        ∧ line = "  " +:+ uid +:+ "  ("
                                 +:+ PyStr.str_int (trip_count row)
                                 +:+ " trips, "
                                 +:+ PyStr.str_int (master_item_count row)
                                 +:+ " items)")
        ["user_c"] orphaned_lines
    ∧ Forall2 (λ uid line,
                 ∃ clerk, clerk_by_id_of sample_clerk_users !! uid = Some clerk
                          ∧ clerk ∈ sample_clerk_users ∧ user_id clerk = uid
                          ∧ line = "  " +:+ uid +:+ "  ("
                                   +:+ user_email clerk +:+ ")")
        ["user_b"] unused_lines.
Proof.
  destruct (report_summary elements sample_clerk_users sample_db_users)
    as (orphaned_lines & unused_lines & H).
  - intros X. reflexivity.
  - exists orphaned_lines, unused_lines. exact H.
Defined.

(** * Further properties *)

(** ** Environment loader: what the file binds *)

Lemma partition_mem c sep s :
  PyStr.mem c s = false →
  PyStr.mem c (PyStr.partition sep s).1.1 = false
  ∧ PyStr.mem c (PyStr.partition sep s).2 = false.
Proof.
  induction s as [|d s IH]; [done|]. simpl.
  destruct (Ascii.eqb c d) eqn:Hcd; [done|]. intros Hs.
  destruct (Ascii.eqb d sep); [done|]. destruct (IH Hs) as [Hb Ha].
  destruct (PyStr.partition sep s) as [[before found] after]. simpl in *.
  by rewrite Hcd.
Qed.

(** The name and the value of a line hold no character that the line does
    not hold. *)
Lemma parse_env_line_mem c line key value :
  parse_env_line line = Some (key, value) →
  PyStr.mem c line = false →
  PyStr.mem c key = false ∧ PyStr.mem c value = false.
Proof.
  unfold parse_env_line. destruct (bool_decide _ || _); [done|].
  intros Hparse Hline.
  destruct (partition_mem c "="%char (PyStr.strip line)) as [Hb Ha];
    [by apply mem_strip_with|].
  destruct (PyStr.partition "="%char (PyStr.strip line))
    as [[before found] after]. simpl in *. injection Hparse as <- <-.
  split; [by apply mem_strip_with|]. by do 2 apply mem_strip_with.
Qed.

Lemma partition_before sep s : PyStr.mem sep (PyStr.partition sep s).1.1 = false.
Proof.
  induction s as [|c s IH]; [done|]. simpl.
  destruct (Ascii.eqb c sep) eqn:Hc; [done|].
  destruct (PyStr.partition sep s) as [[before found] after]. simpl in *.
  by rewrite Ascii.eqb_sym, Hc.
Qed.

Lemma parse_env_line_key line key value :
  parse_env_line line = Some (key, value) → PyStr.mem "="%char key = false.
Proof.
  unfold parse_env_line. destruct (bool_decide _ || _); [done|].
  pose proof (partition_before "="%char (PyStr.strip line)) as Hbefore.
  destruct (PyStr.partition "="%char (PyStr.strip line))
    as [[before found] after]. simpl in Hbefore. intros [= <- <-].
  by apply mem_strip_with.
Qed.

Lemma load_env_line_storable environ line :
  (∃ environ', load_env_line environ line = inr environ') ↔ storable line.
Proof.
  unfold load_env_line, storable.
  destruct (parse_env_line line) as [[key value]|] eqn:Hparse.
  - pose proof (parse_env_line_key _ _ _ Hparse) as Hkey. split.
    + intros [environ' Hset] k v [= <- <-]. unfold environ_set in Hset.
      rewrite Hkey, orb_false_r in Hset.
      destruct (PyStr.mem NUL key), (PyStr.mem NUL value); try done.
      by case_bool_decide.
    + intros Hok. destruct (Hok key value eq_refl) as (Hne & Hk & Hv).
      eexists. by apply environ_set_stores.
  - split; [done|]. by eexists.
Qed.

Lemma load_env_lines_storable lines : ∀ environ,
  (∃ environ', load_env_lines lines environ = inr environ')
  ↔ ∀ line, line ∈ lines → storable line.
Proof.
  induction lines as [|line lines IH]; intros environ.
  - split; [by intros _ line ?%elem_of_nil|by eexists].
  - cbn [load_env_lines]. split.
    + intros [environ' Hrun] l Hl.
      destruct (load_env_line environ line) as [e|environ1] eqn:Hline;
        [done|].
      apply elem_of_cons in Hl as [->|Hl].
      * apply (load_env_line_storable environ). by eexists.
      * apply (IH environ1); [by eexists|done].
    + intros Hok.
      destruct (proj2 (load_env_line_storable environ line))
        as [environ1 Hline]; [apply Hok; by left|].
      rewrite Hline. apply IH. intros l Hl. apply Hok. by right.
Qed.

(** [load_env] returns exactly when the store accepts the name and the
    value of every line of the file; then a name has the value that the last
    line binding it gives, also when the environment had the name before,
    and a name no line binds keeps what the environment had. *)
Theorem load_env_lookup env_path text environ :
  ((∃ environ', load_env env_path (Some text) environ = Return environ')
   ↔ ∀ line, line ∈ PyStr.splitlines text → storable line)
  ∧ ∀ environ' key,
      load_env env_path (Some text) environ = Return environ' →
      environ' !! key
      = match last_binding (PyStr.splitlines text) key with
        | Some value => Some value
        | None => environ !! key
        end.
Proof.
  split.
  - rewrite <- (load_env_lines_storable _ environ). simpl.
    destruct (load_env_lines _ _) as [e|environ1]; split;
      intros [environ' H]; try done; by eexists.
  - intros environ' key. simpl.
    destruct (load_env_lines _ _) as [e|environ1] eqn:Hload; [done|].
    intros [= <-]. by apply load_env_lines_lookup.
Qed.

Lemma load_env_lookup_witness :
  load_env ".env.production.local" (Some sample_env_text) ∅
  = Return sample_environ_loaded
  ∧ sample_environ_loaded !! "CLERK_SECRET_KEY"
    = match last_binding (PyStr.splitlines sample_env_text)
              "CLERK_SECRET_KEY" with
      | Some value => Some value
      | None => (∅ : gmap string string) !! "CLERK_SECRET_KEY"
      end.
Proof.
  split; [by vm_compute|].
  apply (proj2 (load_env_lookup ".env.production.local" sample_env_text ∅)).
  by vm_compute.
Defined.

Lemma load_env_returns env_path text environ environ' :
  load_env env_path (Some text) environ = Return environ' →
  load_env_lines (PyStr.splitlines text) environ = inr environ'.
Proof.
  simpl. destruct (load_env_lines _ _) as [e|environ1]; [done|].
  by intros [= <-].
Qed.

(** Loading the same file a second time changes nothing. *)
Theorem load_env_idempotent env_path text environ environ' :
  load_env env_path (Some text) environ = Return environ' →
  load_env env_path (Some text) environ' = Return environ'.
Proof.
  intros Hload%load_env_returns.
  destruct (proj2 (load_env_lines_storable (PyStr.splitlines text) environ'))
    as [environ'' Hagain].
  { apply (load_env_lines_storable _ environ). by eexists. }
  simpl. rewrite Hagain. f_equal. apply map_eq. intros key.
  rewrite (load_env_lines_lookup _ _ _ key Hagain).
  rewrite (load_env_lines_lookup _ _ _ key Hload).
  by destruct (last_binding (PyStr.splitlines text) key).
Qed.

Lemma load_env_idempotent_witness :
  load_env ".env.production.local" (Some sample_env_text)
    sample_environ_loaded
  = Return sample_environ_loaded.
Proof.
  apply (load_env_idempotent ".env.production.local" sample_env_text ∅).
  by vm_compute.
Defined.

(** ** Environment loader: the shape of what is stored *)

Section StripUnique.
Variable p : ascii → bool.

Lemma lstrip_with_all l s :
  PyStr.all_chars p l = true →
  PyStr.lstrip_with p (l +:+ s) = PyStr.lstrip_with p s.
Proof.
  induction l as [|c l IH]; [done|]. simpl.
  intros [Hc Hl]%andb_true_iff. rewrite Hc. by apply IH.
Qed.

Lemma lstrip_with_clean s :
  PyStr.clean_end p (PyStr.first_char s) = true → PyStr.lstrip_with p s = s.
Proof. destruct s as [|c s]; [done|]. simpl. by intros ->%negb_true_iff. Qed.

Lemma rstrip_with_all r :
  PyStr.all_chars p r = true → PyStr.rstrip_with p r = EmptyString.
Proof.
  induction r as [|c r IH]; [done|]. simpl.
  intros [Hc Hr]%andb_true_iff. by rewrite IH, Hc.
Qed.

Lemma rstrip_with_append_all s r :
  PyStr.all_chars p r = true →
  PyStr.rstrip_with p (s +:+ r) = PyStr.rstrip_with p s.
Proof.
  intros Hr. induction s as [|c s IH]; [by apply rstrip_with_all|].
  rewrite append_cons. cbn [PyStr.rstrip_with]. by rewrite IH.
Qed.

Lemma rstrip_with_clean s :
  PyStr.clean_end p (PyStr.last_char s) = true → PyStr.rstrip_with p s = s.
Proof.
  induction s as [|c s IH]; [done|]. destruct s as [|d t].
  - simpl. by intros ->%negb_true_iff.
  - intros Hlast. specialize (IH Hlast). simpl in IH |- *. by rewrite IH.
Qed.

(** A character that is not stripped shields what stands before it. *)
Lemma rstrip_with_behind s c t :
  p c = false →
  PyStr.rstrip_with p (s +:+ String c t)
  = s +:+ String c (PyStr.rstrip_with p t).
Proof.
  intros Hc. induction s as [|d s IH].
  - change (EmptyString +:+ String c t) with (String c t).
    cbn [PyStr.rstrip_with].
    destruct (PyStr.rstrip_with p t); [by rewrite Hc|done].
  - rewrite !append_cons. cbn [PyStr.rstrip_with]. rewrite IH.
    by destruct s.
Qed.

(** [strip_with] is the only way to strip. *)
Lemma stripped_strip_with s t :
  PyStr.stripped p s t → PyStr.strip_with p s = t.
Proof.
  intros (l & r & -> & Hl & Hr & Hfirst & Hlast). unfold PyStr.strip_with.
  rewrite lstrip_with_all by done. destruct t as [|c t].
  - change (EmptyString +:+ r) with r.
    replace r with (r +:+ EmptyString) by (clear; induction r as [|? ? IH];
      [done|by rewrite append_cons, IH]).
    by rewrite lstrip_with_all.
  - rewrite lstrip_with_clean by (by rewrite append_cons).
    rewrite rstrip_with_append_all by done. by apply rstrip_with_clean.
Qed.

Lemma strip_rstrip_with s :
  PyStr.strip_with p (PyStr.rstrip_with p s) = PyStr.strip_with p s.
Proof.
  unfold PyStr.strip_with. by rewrite lstrip_rstrip_with, rstrip_with_idem.
Qed.
End StripUnique.

Lemma parse_env_line_shape line key value :
  parse_env_line line = Some (key, value) →
  PyStr.mem "="%char key = false
  ∧ PyStr.clean_end PyStr.isspace (PyStr.first_char key) = true
  ∧ PyStr.clean_end PyStr.isspace (PyStr.last_char key) = true
  ∧ PyStr.clean_end is_quote (PyStr.first_char value) = true
  ∧ PyStr.clean_end is_quote (PyStr.last_char value) = true.
Proof.
  unfold parse_env_line.
  destruct (bool_decide _ || _); [done|].
  pose proof (partition_before "="%char (PyStr.strip line)) as Hbefore.
  destruct (PyStr.partition "="%char (PyStr.strip line))
    as [[before found] after]. simpl in Hbefore. intros [= <- <-].
  destruct (strip_with_stripped PyStr.isspace before)
    as (? & ? & _ & _ & _ & Hkf & Hkl).
  destruct (strip_with_stripped is_quote (PyStr.strip after))
    as (? & ? & _ & _ & _ & Hvf & Hvl).
  split; [by apply mem_strip_with|]. by repeat split.
Qed.

Lemma last_binding_Some lines key value :
  last_binding lines key = Some value →
  ∃ line, line ∈ lines ∧ parse_env_line line = Some (key, value).
Proof.
  induction lines as [|line lines IH]; [done|]. simpl.
  destruct (last_binding lines key) as [v|].
  - intros [= ->]. destruct (IH eq_refl) as (l & Hl & Hparse).
    exists l. split; [by right|done].
  - destruct (parse_env_line line) as [[k v]|] eqn:Hparse; [|done].
    case_bool_decide as Hk; [|done]. intros [= ->]. subst k.
    exists line. split; [by left|done].
Qed.

(** Whatever [load_env] puts into the environment has a name without [=]
    and without white space at its ends, and a value without a quote
    character at its ends. *)
Theorem load_env_stored_shape env_path text environ environ' key value :
  load_env env_path (Some text) environ = Return environ' →
  environ' !! key = Some value →
  environ !! key = Some value
  ∨ (PyStr.mem "="%char key = false
     ∧ PyStr.clean_end PyStr.isspace (PyStr.first_char key) = true
     ∧ PyStr.clean_end PyStr.isspace (PyStr.last_char key) = true
     ∧ PyStr.clean_end is_quote (PyStr.first_char value) = true
     ∧ PyStr.clean_end is_quote (PyStr.last_char value) = true).
Proof.
  intros Hload%load_env_returns.
  rewrite (load_env_lines_lookup _ _ _ key Hload).
  destruct (last_binding (PyStr.splitlines text) key) as [v|] eqn:Hlast;
    [|by left].
  intros [= ->]. right.
  destruct (last_binding_Some _ _ _ Hlast) as (line & _ & Hparse).
  by apply (parse_env_line_shape line).
Qed.

Lemma load_env_stored_shape_witness :
  (∅ : gmap string string) !! "WRANGLER_BIN" = Some "/opt/wrangler"
  ∨ (PyStr.mem "="%char "WRANGLER_BIN" = false
     ∧ PyStr.clean_end PyStr.isspace (PyStr.first_char "WRANGLER_BIN") = true
     ∧ PyStr.clean_end PyStr.isspace (PyStr.last_char "WRANGLER_BIN") = true
     ∧ PyStr.clean_end is_quote (PyStr.first_char "/opt/wrangler") = true
     ∧ PyStr.clean_end is_quote (PyStr.last_char "/opt/wrangler") = true).
Proof.
  apply (load_env_stored_shape ".env.production.local" sample_env_text ∅
           sample_environ_loaded).
  - by vm_compute.
  - by vm_compute.
Defined.

(** A line written as a name, [=] and a value, with white space around
    either and quote characters around the value, stores that value under
    that name: if the text before the first [=] is [key] with white space
    around it, the text after it is [written] with white space around it,
    and [written] is [value] with quote characters around it, then
    [(key, value)] is what the line binds. *)
Theorem parse_env_line_written before after key written value :
  PyStr.stripped PyStr.isspace before key →
  PyStr.stripped PyStr.isspace after written →
  PyStr.stripped is_quote written value →
  PyStr.mem "="%char before = false →
  key ≠ EmptyString →
  PyStr.first_char key ≠ Some "#"%char →
  parse_env_line (before +:+ String "="%char after) = Some (key, value).
Proof.
  intros (l & r & -> & Hl & Hr & Hkf & Hkl) Hafter Hvalue Hmem Hne Hcomment.
  destruct key as [|c key]; [done|]. simpl in Hkf.
  apply negb_true_iff in Hkf.
  assert (PyStr.strip ((l +:+ String c key +:+ r) +:+ String "="%char after)
          = (String c key +:+ r)
            +:+ String "="%char (PyStr.rstrip_with PyStr.isspace after))
    as Hstrip.
  { unfold PyStr.strip, PyStr.strip_with.
    rewrite !append_assoc, lstrip_with_all by done.
    rewrite lstrip_with_clean by (rewrite append_cons; simpl; by rewrite Hkf).
    rewrite <- !append_assoc. by apply rstrip_with_behind. }
  rewrite mem_append, orb_false_iff in Hmem. destruct Hmem as [_ Hmem].
  rewrite parse_env_line_effective; rewrite Hstrip.
  - rewrite partition_first by done. do 2 f_equal.
    + apply stripped_strip_with. exists EmptyString, r. simpl.
      by rewrite Hkf.
    + unfold PyStr.strip. rewrite strip_rstrip_with.
      rewrite (stripped_strip_with _ _ _ Hafter).
      by apply stripped_strip_with.
  - by rewrite append_cons.
  - rewrite !append_cons. unfold PyStr.startswith. cbn [String.prefix].
    destruct (Ascii.ascii_dec "#" c) as [<-|Hc]; [by destruct Hcomment|done].
Qed.

Lemma parse_env_line_written_witness :
  parse_env_line ("  KEY " +:+ String "="%char " 'a # b' ")
  = Some ("KEY", "a # b").
Proof.
  apply (parse_env_line_written "  KEY " " 'a # b' " "KEY" "'a # b'" "a # b").
  - by exists "  ", " ".
  - by exists " ", " ".
  - by exists "'", "'".
  - reflexivity.
  - discriminate.
  - discriminate.
Defined.

(** ** Identity client: when and how the loop ends *)

Section PaginationReturns.
Variable strftime : Z → exn + string.
Variable clerk_api : nat → clerk_response.
Variable api_key : string.

Lemma fetch_pages_returns fuel : ∀ page users sent users' sent',
  fetch_pages strftime clerk_api api_key fuel page users sent
  = Some (Return users', sent') →
  ∃ k appended,
    (∀ i, (i < k)%nat →
          (page_size ≤ length (batch_of (clerk_api (page + i))))%nat)
    ∧ (length (batch_of (clerk_api (page + k))) < page_size)%nat
    ∧ users' = users ++ appended
    ∧ Forall2 (λ u user, clerk_user strftime u = inr user)
        (concat ((λ q, batch_of (clerk_api q)) <$> seq page (S k)))
        appended
    ∧ sent' = sent ++ (users_request api_key <$> seq page (S k)).
Proof.
  induction fuel as [|fuel IH]; intros page users sent users' sent'; [done|].
  cbn [fetch_pages].
  destruct (batch_of (clerk_api page)) as [|u us] eqn:Hb.
  - intros [= <- <-]. exists 0%nat, []. rewrite Nat.add_0_r, Hb.
    cbn [seq fmap list_fmap concat]. rewrite Hb, !app_nil_r.
    split; [lia|]. split; [unfold page_size; simpl; lia|].
    split; [done|]. split; [constructor|done].
  - destruct (clerk_users_of strftime (u :: us)) as [e|appended] eqn:Happ;
      [done|].
    apply clerk_users_of_inr in Happ.
    case_bool_decide as Hshort.
    + intros [= <- <-]. exists 0%nat, appended. rewrite Nat.add_0_r, Hb.
      cbn [seq fmap list_fmap concat]. rewrite Hb, app_nil_r.
      split; [lia|]. by repeat split.
    + intros (k & appended' & Hfull & Hlast & -> & Husers & ->)%IH.
      exists (S k), (appended ++ appended').
      split; [|split; [|split; [|split]]].
      * intros [|i] Hi; [rewrite Nat.add_0_r, Hb; lia|].
        replace (page + S i)%nat with (S page + i)%nat by lia.
        apply Hfull. lia.
      * by replace (page + S k)%nat with (S page + k)%nat by lia.
      * by rewrite <- app_assoc.
      * change (seq page (S (S k))) with (page :: seq (S page) (S k)).
        cbn [fmap list_fmap concat]. rewrite Hb. by apply Forall2_app.
      * change (seq page (S (S k))) with (page :: seq (S page) (S k)).
        cbn [fmap list_fmap]. by rewrite <- !app_assoc.
Qed.

(** However the loop ends, it has asked for consecutive pages only, and
    for at least one. *)
Lemma fetch_pages_requests fuel : ∀ page users sent result sent',
  fetch_pages strftime clerk_api api_key fuel page users sent
  = Some (result, sent') →
  ∃ k, sent' = sent ++ (users_request api_key <$> seq page (S k)).
Proof.
  induction fuel as [|fuel IH]; intros page users sent result sent'; [done|].
  cbn [fetch_pages].
  destruct (batch_of (clerk_api page)) as [|u us] eqn:Hb.
  - intros [= <- <-]. by exists 0%nat.
  - destruct (clerk_users_of strftime (u :: us)) as [e|appended].
    + intros [= <- <-]. by exists 0%nat.
    + case_bool_decide as Hshort.
      * intros [= <- <-]. by exists 0%nat.
      * intros [k ->]%IH. exists (S k).
        change (seq page (S (S k))) with (page :: seq (S page) (S k)).
        cbn [fmap list_fmap]. by rewrite <- !app_assoc.
Qed.

Lemma fetch_pages_endless fuel : ∀ page users sent,
  (∀ q, (page ≤ q)%nat → (page_size ≤ length (batch_of (clerk_api q)))%nat) →
  (fetch_pages strftime clerk_api api_key fuel page users sent = None
   ∨ ∃ e sent',
       fetch_pages strftime clerk_api api_key fuel page users sent
       = Some (Raise e, sent'))
  ∧ ((∀ q u, (page ≤ q)%nat → u ∈ batch_of (clerk_api q) →
             converts strftime u) →
     fetch_pages strftime clerk_api api_key fuel page users sent = None).
Proof.
  induction fuel as [|fuel IH]; intros page users sent Hfull;
    [by split; [left|]|].
  cbn [fetch_pages]. pose proof (Hfull page ltac:(lia)) as Hp.
  destruct (batch_of (clerk_api page)) as [|u us] eqn:Hb;
    [unfold page_size in Hp; simpl in Hp; lia|].
  destruct (clerk_users_of strftime (u :: us)) as [e|appended] eqn:Happ.
  - split; [right; by eexists _, _|]. intros Hconv.
    destruct (clerk_users_of_converts strftime (u :: us)) as [users' Husers].
    + intros u' Hu'. apply (Hconv page); [lia|by rewrite Hb].
    + congruence.
  - rewrite bool_decide_eq_false_2 by lia.
    destruct (IH (S page) (users ++ appended)
                (sent ++ [users_request api_key page])) as [Hends Hnone].
    + intros q Hq. apply Hfull. lia.
    + split; [done|]. intros Hconv. apply Hnone.
      intros q u' Hq. apply Hconv. lia.
Qed.
End PaginationReturns.

Lemma fetch_pages_batches strftime clerk_api clerk_api' api_key fuel :
  (∀ page, batch_of (clerk_api page) = batch_of (clerk_api' page)) →
  ∀ page users sent,
    fetch_pages strftime clerk_api api_key fuel page users sent
    = fetch_pages strftime clerk_api' api_key fuel page users sent.
Proof.
  intros Hb. induction fuel as [|fuel IH]; intros page users sent; [done|].
  cbn [fetch_pages]. rewrite Hb.
  destruct (batch_of (clerk_api' page)); [done|].
  destruct (clerk_users_of _ _); [done|]. by rewrite IH.
Qed.

Lemma clerk_users_ids strftime batch users :
  Forall2 (λ u user, clerk_user strftime u = inr user) batch users →
  user_id <$> users = api_id <$> batch.
Proof.
  induction 1 as [|u user batch users Hu _ IH]; [done|].
  rewrite !fmap_cons, IH. f_equal. by eapply clerk_user_keeps_id.
Qed.

Lemma length_full_pages clerk_api k : ∀ page,
  (∀ i, (i < k)%nat →
        (page_size ≤ length (batch_of (clerk_api (page + i))))%nat) →
  (page_size * k
   ≤ length (concat ((λ q, batch_of (clerk_api q)) <$> seq page (S k))))%nat.
Proof.
  induction k as [|k IH]; intros page Hfull; [unfold page_size; lia|].
  change (seq page (S (S k))) with (page :: seq (S page) (S k)).
  rewrite fmap_cons. cbn [concat]. rewrite length_app.
  pose proof (Hfull 0%nat ltac:(lia)) as Hp. rewrite Nat.add_0_r in Hp.
  specialize (IH (S page)).
  assert (∀ i, (i < k)%nat →
               (page_size ≤ length (batch_of (clerk_api (S page + i))))%nat)
    as Hrest.
  { intros i Hi. replace (S page + i)%nat with (page + S i)%nat by lia.
    apply Hfull. lia. }
  specialize (IH Hrest). unfold page_size in *. lia.
Qed.

(** Whenever the identity client returns users, it has asked for the pages
    1 to [n] in this order and for no other, every page before the last had
    at least 100 users and the last one fewer; the users are those of these
    pages, one for each with its id, in order, so at least 100 for each page
    but the last. *)
Theorem fetch_clerk_users_returns strftime clerk_api environ fuel users sent :
  fetch_clerk_users strftime clerk_api environ fuel
  = Some (Return users, sent) →
  ∃ api_key n,
    environ !! "CLERK_SECRET_KEY" = Some api_key
    ∧ api_key ≠ EmptyString
    ∧ (1 ≤ n)%nat
    ∧ (∀ q, (1 ≤ q < n)%nat →
            (page_size ≤ length (batch_of (clerk_api q)))%nat)
    ∧ (length (batch_of (clerk_api n)) < page_size)%nat
    ∧ sent = users_request api_key <$> seq 1 n
    ∧ Forall2 (λ u user, clerk_user strftime u = inr user)
        (concat ((λ q, batch_of (clerk_api q)) <$> seq 1 n)) users
    ∧ user_id <$> users
      = api_id <$> concat ((λ q, batch_of (clerk_api q)) <$> seq 1 n)
    ∧ (page_size * (n - 1) ≤ length users)%nat.
Proof.
  unfold fetch_clerk_users.
  destruct (environ !! "CLERK_SECRET_KEY") as [[|c key]|] eqn:Henv;
    simpl; try done.
  intros Hrun.
  apply fetch_pages_returns in Hrun
    as (k & appended & Hfull & Hlast & Hu & Husers & Hs).
  rewrite app_nil_l in Hu, Hs. subst appended.
  exists (String c key), (S k). repeat split; try done.
  - lia.
  - intros q Hq. replace q with (1 + (q - 1))%nat by lia. apply Hfull. lia.
  - by eapply clerk_users_ids.
  - rewrite <- (Forall2_length _ _ _ Husers).
    replace (S k - 1)%nat with k by lia. by apply length_full_pages.
Qed.

Lemma fetch_clerk_users_returns_witness :
  ∃ users sent api_key n,
    fetch_clerk_users sample_strftime
      (mock_api [sample_page 100; sample_page 37]) sample_environ 5
    = Some (Return users, sent)
    ∧ sample_environ !! "CLERK_SECRET_KEY" = Some api_key
    ∧ api_key ≠ EmptyString
    ∧ (1 ≤ n)%nat
    ∧ (length (batch_of (mock_api [sample_page 100; sample_page 37] n))
       < page_size)%nat
    ∧ sent = users_request api_key <$> seq 1 n
    ∧ user_id <$> users
      = api_id <$> concat ((λ q, batch_of (mock_api [sample_page 100;
                                                       sample_page 37] q))
                             <$> seq 1 n)
    ∧ (page_size * (n - 1) ≤ length users)%nat.
Proof.
  assert (∃ users sent,
            fetch_clerk_users sample_strftime
              (mock_api [sample_page 100; sample_page 37]) sample_environ 5
            = Some (Return users, sent)) as (users & sent & Hrun)
    by (vm_compute; by eexists _, _).
  destruct (fetch_clerk_users_returns sample_strftime
              (mock_api [sample_page 100; sample_page 37]) sample_environ 5
              users sent Hrun)
    as (api_key & n & Henv & Hkey & Hn & _ & Hlast & Hsent & _ & Hids & Hlen).
  by exists users, sent, api_key, n.
Defined.

(** The loop has no bound of its own: against a source whose every page
    has at least 100 users the identity client never returns, however long
    it runs: it is still running, unless the conversion of a time stamp has
    raised; and it is still running when every time stamp converts. *)
Theorem fetch_clerk_users_endless strftime clerk_api environ api_key :
  environ !! "CLERK_SECRET_KEY" = Some api_key →
  api_key ≠ EmptyString →
  (∀ q, (1 ≤ q)%nat → (page_size ≤ length (batch_of (clerk_api q)))%nat) →
  (∀ fuel,
     fetch_clerk_users strftime clerk_api environ fuel = None
     ∨ ∃ e sent,
         fetch_clerk_users strftime clerk_api environ fuel
         = Some (Raise e, sent))
  ∧ ((∀ q u, (1 ≤ q)%nat → u ∈ batch_of (clerk_api q) →
             converts strftime u) →
     ∀ fuel, fetch_clerk_users strftime clerk_api environ fuel = None).
Proof.
  intros Henv Hkey Hfull. unfold fetch_clerk_users. rewrite Henv. simpl.
  destruct api_key as [|c key]; [done|]. split.
  - intros fuel.
    by destruct (fetch_pages_endless strftime clerk_api (String c key)
                   fuel 1 [] [] Hfull).
  - intros Hconv fuel.
    by destruct (fetch_pages_endless strftime clerk_api (String c key)
                   fuel 1 [] [] Hfull) as [_ ->].
Qed.

Lemma fetch_clerk_users_endless_witness :
  fetch_clerk_users sample_strftime (λ _, BareArray (sample_page 100))
    sample_environ 1000
  = None.
Proof.
  apply (fetch_clerk_users_endless sample_strftime
           (λ _, BareArray (sample_page 100)) sample_environ "sk_test").
  - reflexivity.
  - discriminate.
  - intros q _. vm_compute. lia.
  - intros q u _ Hu. by eapply sample_page_converts.
Defined.

(** A reply that is an object counts as the list in its [data] member, and
    as an empty page when it has no such member: after full pages whose
    time stamps convert, an object without [data] ends the loop and one user
    for each user of the pages before it is returned. *)
Theorem fetch_clerk_users_object_reply strftime environ api_key :
  environ !! "CLERK_SECRET_KEY" = Some api_key →
  api_key ≠ EmptyString →
  (∀ (pages : nat → option (list ClerkApiUser)) fuel,
     fetch_clerk_users strftime (λ page, DataObject (pages page)) environ fuel
     = fetch_clerk_users strftime
         (λ page, BareArray (default [] (pages page))) environ fuel)
  ∧ (∀ clerk_api n fuel,
       clerk_api (S n) = DataObject None →
       (∀ q, (1 ≤ q ≤ n)%nat →
             (page_size ≤ length (batch_of (clerk_api q)))%nat) →
       (∀ q u, (1 ≤ q ≤ n)%nat → u ∈ batch_of (clerk_api q) →
               converts strftime u) →
       (S n ≤ fuel)%nat →
       ∃ users,
         fetch_clerk_users strftime clerk_api environ fuel
         = Some (Return users, users_request api_key <$> seq 1 (S n))
         ∧ Forall2 (λ u user, clerk_user strftime u = inr user)
             (concat ((λ q, batch_of (clerk_api q)) <$> seq 1 n)) users).
Proof.
  intros Henv Hkey. split.
  - intros pages fuel. unfold fetch_clerk_users. rewrite Henv. simpl.
    destruct api_key as [|c key]; [done|].
    by rewrite (fetch_pages_batches strftime (λ page, DataObject (pages page))
                  (λ page, BareArray (default [] (pages page)))).
  - intros clerk_api n fuel Hlast Hfull Hconv Hfuel.
    destruct (fetch_clerk_users_stops strftime clerk_api environ api_key
                (S n) fuel) as (users & Hrun & Husers); try done.
    + lia.
    + intros q Hq. apply Hfull. lia.
    + rewrite Hlast. unfold page_size. simpl. lia.
    + intros q u Hq Hu. destruct (decide (q = S n)) as [->|Hne].
      * rewrite Hlast in Hu. by apply elem_of_nil in Hu.
      * apply (Hconv q); [lia|done].
    + exists users. split; [done|].
      rewrite seq_S, fmap_app, concat_app in Husers.
      cbn [fmap list_fmap concat] in Husers.
      change (1 + n)%nat with (S n) in Husers. rewrite Hlast in Husers.
      simpl in Husers. by rewrite !app_nil_r in Husers.
Qed.

Lemma fetch_clerk_users_object_reply_witness :
  ∃ users,
    fetch_clerk_users sample_strftime
      (λ page, if bool_decide (page = 1%nat)
               then DataObject (Some (sample_page 100)) else DataObject None)
      sample_environ 2
    = Some (Return users, users_request "sk_test" <$> seq 1 2)
    ∧ Forall2 (λ u user, clerk_user sample_strftime u = inr user)
        (concat ((λ q, batch_of
                         (if bool_decide (q = 1%nat)
                          then DataObject (Some (sample_page 100))
                          else DataObject None))
                   <$> seq 1 1)) users.
Proof.
  destruct (fetch_clerk_users_object_reply sample_strftime sample_environ
              "sk_test" eq_refl ltac:(discriminate)) as [_ H].
  apply (H (λ page, if bool_decide (page = 1%nat)
                    then DataObject (Some (sample_page 100))
                    else DataObject None) 1%nat 2%nat).
  - reflexivity.
  - intros q Hq. assert (q = 1%nat) as -> by lia. vm_compute. lia.
  - intros q u Hq. assert (q = 1%nat) as -> by lia.
    apply sample_page_converts.
  - lia.
Defined.
(** ** The environment file and the two clients *)

(** The secret key the file binds last is the one the identity client
    uses, whatever the environment held before: every request it sends
    carries it as bearer token, and it sends at least one; if the file binds
    the key to the empty string the client gives up before any request. *)
Theorem fetch_clerk_users_key_from_file strftime clerk_api env_path text
    environ environ' key fuel :
  load_env env_path (Some text) environ = Return environ' →
  last_binding (PyStr.splitlines text) "CLERK_SECRET_KEY" = Some key →
  (key = EmptyString →
   fetch_clerk_users strftime clerk_api environ' fuel
   = Some (Exit "Error: CLERK_SECRET_KEY not set" 1, []))
  ∧ (key ≠ EmptyString →
     ∀ result sent,
       fetch_clerk_users strftime clerk_api environ' fuel
       = Some (result, sent) →
       sent ≠ []
       ∧ Forall (λ req, ("Authorization", "Bearer " +:+ key) ∈ headers req)
           sent).
Proof.
  intros Hload%load_env_returns Hlast.
  assert (environ' !! "CLERK_SECRET_KEY" = Some key) as Henv
    by by rewrite (load_env_lines_lookup _ _ _ _ Hload), Hlast.
  unfold fetch_clerk_users. rewrite Henv. simpl. split.
  - by intros ->.
  - intros Hkey result sent. destruct key as [|c key]; [done|].
    intros [k ->]%fetch_pages_requests.
    rewrite app_nil_l. split; [done|].
    apply Forall_fmap, Forall_forall. intros page _. simpl. by left.
Qed.

Lemma fetch_clerk_users_key_from_file_witness :
  ("sk_live_2" = EmptyString →
   fetch_clerk_users sample_strftime (mock_api [sample_page 3])
     sample_environ_loaded 2
   = Some (Exit "Error: CLERK_SECRET_KEY not set" 1, []))
  ∧ ("sk_live_2" ≠ EmptyString →
     ∀ result sent,
       fetch_clerk_users sample_strftime (mock_api [sample_page 3])
         sample_environ_loaded 2
       = Some (result, sent) →
       sent ≠ []
       ∧ Forall (λ req, ("Authorization", "Bearer " +:+ "sk_live_2")
                        ∈ headers req) sent).
Proof.
  apply (fetch_clerk_users_key_from_file sample_strftime
           (mock_api [sample_page 3]) ".env.production.local"
           sample_env_text sample_environ).
  - by vm_compute.
  - by vm_compute.
Defined.

(** The path of the wrangler tool after the file is loaded: the value the
    file binds last to [WRANGLER_BIN] if that is not empty; the local binary
    or the bare command name if the file binds it to the empty string, even
    when the environment named a tool before; and what the environment
    held before decides when the file does not bind it. *)
Theorem find_wrangler_after_load_env env_path text environ environ' local
    local_exists :
  load_env env_path (Some text) environ = Return environ' →
  match last_binding (PyStr.splitlines text) "WRANGLER_BIN" with
  | Some (String c s) => find_wrangler environ' local local_exists = String c s
  | Some EmptyString =>
      find_wrangler environ' local local_exists
      = if local_exists then local else "wrangler"
  | None =>
      find_wrangler environ' local local_exists
      = find_wrangler environ local local_exists
  end.
Proof.
  intros Hload%load_env_returns. unfold find_wrangler.
  rewrite (load_env_lines_lookup _ _ _ _ Hload).
  by destruct (last_binding _ _) as [[|c s]|].
Qed.

Lemma find_wrangler_after_load_env_witness :
  find_wrangler sample_environ_loaded
    "/srv/packzen/node_modules/.bin/wrangler" true
  = "/opt/wrangler".
Proof.
  apply (find_wrangler_after_load_env ".env.production.local" sample_env_text
           ∅ sample_environ_loaded
           "/srv/packzen/node_modules/.bin/wrangler" true).
  by vm_compute.
Defined.

(** ** Database query runner: what is returned *)

Lemma dict_get_last pre key v post : ∀ default,
  key ∉ post.*1 →
  dict_get (pre ++ (key, v) :: post) key default = v.
Proof.
  induction pre as [|[k w] pre IH]; intros default Hpost; simpl.
  - rewrite bool_decide_eq_true_2 by done. apply dict_get_absent.
    by apply bool_decide_eq_false_2.
  - case_bool_decide; by apply IH.
Qed.

(** When wrangler ends with status 0 and its output decodes to a list
    whose first element is an object, the query runner returns the value of
    the last [results] member of that object as it is, whatever that value
    is and whatever else the list holds. *)
Theorem query_d1_results run json_loads wrangler DB_NAME sql pre v post rest :
  let result :=
    run [wrangler; "d1"; "execute"; DB_NAME; "--remote"; "--json";
         "--command"; sql] in
  returncode result = 0 →
  json_loads (stdout result)
  = Some (JList (JDict (pre ++ ("results", v) :: post) :: rest)) →
  "results" ∉ post.*1 →
  query_d1 run json_loads wrangler DB_NAME sql = Return v.
Proof.
  intros result Hcode Hloads Hpost. unfold query_d1. fold result.
  rewrite bool_decide_eq_false_2 by (by intros ?).
  rewrite Hloads. simpl. f_equal. by apply dict_get_last.
Qed.

Lemma query_d1_results_witness :
  query_d1 sample_run_ok sample_json_loads_ok "wrangler" "packzen-db" "SELECT 1"
  = Return JNull.
Proof.
  apply (query_d1_results sample_run_ok sample_json_loads_ok "wrangler"
           "packzen-db" "SELECT 1" [] JNull [("success", JBool true)]
           [JInt 7]).
  - reflexivity.
  - reflexivity.
  - apply (bool_decide_unpack _). vm_compute. exact I.
Defined.

(** ** Report: an id that occurs more than once *)

Lemma clerk_by_id_of_last l1 u l2 :
  user_id u ∉ user_id <$> l2 →
  clerk_by_id_of (l1 ++ u :: l2) !! user_id u = Some u.
Proof.
  induction l2 as [|v l2 IH] using rev_ind; intros Hnotin.
  - rewrite clerk_by_id_of_snoc. apply lookup_insert_eq.
  - rewrite fmap_app, not_elem_of_app in Hnotin. destruct Hnotin as [Hl2 Hv].
    rewrite app_comm_cons, app_assoc, clerk_by_id_of_snoc.
    rewrite lookup_insert_ne; [by apply IH|].
    intros Hid. apply Hv. simpl. rewrite Hid. by left.
Qed.

Lemma next_db_row_first d1 r d2 :
  clerk_user_id r ∉ clerk_user_id <$> d1 →
  next_db_row (d1 ++ r :: d2) (clerk_user_id r) = Some r.
Proof.
  unfold next_db_row. induction d1 as [|r' d1 IH]; intros Hnotin; simpl.
  - by rewrite bool_decide_eq_true_2.
  - rewrite fmap_cons, not_elem_of_cons in Hnotin. destruct Hnotin as [Hr' Hd1].
    rewrite bool_decide_eq_false_2 by done. by apply IH.
Qed.

(** When an id occurs more than once in a list, its row shows the email of
    the last identity user with the id, and the counts of the first database
    summary with the id. *)
Theorem report_row_duplicates set_iter clerk_users db_users row :
  row ∈ report_rows set_iter clerk_users db_users →
  (∀ l1 u l2,
     clerk_users = l1 ++ u :: l2 →
     user_id u = row_uid row →
     row_uid row ∉ user_id <$> l2 →
     row_email row = user_email u)
  ∧ (∀ d1 r d2,
       db_users = d1 ++ r :: d2 →
       clerk_user_id r = row_uid row →
       row_uid row ∉ clerk_user_id <$> d1 →
       row_trips row = trip_count r ∧ row_items row = master_item_count r
       ∧ row_cats row = category_count r
       ∧ row_tmpls row = bag_template_count r).
Proof.
  intros (uid & _ & ->)%elem_of_report_rows. rewrite report_row_uid. split.
  - intros l1 u l2 -> <- Hnotin.
    by rewrite report_row_email, clerk_by_id_of_last.
  - intros d1 r d2 -> <- Hnotin.
    pose proof (report_row_db (clerk_by_id_of clerk_users)
                  (d1 ++ r :: d2) (clerk_user_id r)) as Hdb.
    cbv zeta in Hdb. by rewrite next_db_row_first in Hdb.
Qed.

Lemma report_row_duplicates_witness :
  row_email sample_dup_row = "new@x.com"
  ∧ row_trips sample_dup_row = 1 ∧ row_items sample_dup_row = 2
  ∧ row_cats sample_dup_row = 3 ∧ row_tmpls sample_dup_row = 4.
Proof.
  destruct (report_row_duplicates elements sample_dup_clerk_users
              sample_dup_db_users sample_dup_row) as [Hemail Hcounts].
  - apply list_elem_of_In. vm_compute. auto.
  - split.
    + apply (Hemail
               [ {| user_id := "user_a"; user_email := "old@x.com";
                    user_created_at := "2024-01-01 00:00:00" |} ]
               {| user_id := "user_a"; user_email := "new@x.com";
                  user_created_at := "2024-02-01 00:00:00" |} []);
        [reflexivity|reflexivity|].
      apply (bool_decide_unpack _). vm_compute. exact I.
    + apply (Hcounts []
               {| clerk_user_id := "user_a"; trip_count := 1;
                  master_item_count := 2; category_count := 3;
                  bag_template_count := 4 |}
               [ {| clerk_user_id := "user_a"; trip_count := 9;
                    master_item_count := 9; category_count := 9;
                    bag_template_count := 9 |} ]);
        [reflexivity|reflexivity|].
      apply (bool_decide_unpack _). vm_compute. exact I.
Defined.

(** ** Report: the counts of the summary against the table *)

Lemma filter_fmap {A B} (f : A → B) (P : B → Prop) `{!∀ y, Decision (P y)}
    (l : list A) :
  filter P (f <$> l) = f <$> filter (λ x, P (f x)) l.
Proof.
  induction l as [|x l IH]; [done|].
  rewrite fmap_cons, !filter_cons, IH. by case_decide.
Qed.

Lemma length_filter_split {A} (P Q : A → Prop) `{!∀ x, Decision (P x)}
    `{!∀ x, Decision (Q x)} (l : list A) :
  length (filter P l)
  = (length (filter (λ x, P x ∧ Q x) l)
     + length (filter (λ x, P x ∧ ¬ Q x) l))%nat.
Proof.
  induction l as [|x l IH]; [done|].
  rewrite !filter_cons. repeat case_decide; simpl; try lia; tauto.
Qed.

Lemma length_filter_complement {A} (P : A → Prop) `{!∀ x, Decision (P x)}
    (l : list A) :
  length l = (length (filter P l) + length (filter (λ x, ¬ P x) l))%nat.
Proof.
  by rewrite <- length_app, (filter_app_complement P l).
Qed.

Section Counts.
Variable set_iter : gset string → list string.
Hypothesis set_iter_ok : set_iteration set_iter.
Variable clerk_users : list IdentityUser.
Variable db_users : list DatabaseUserSummary.

Lemma length_status_rows status :
  length (filter (λ row, row_status row = status)
            (report_rows set_iter clerk_users db_users))
  = length (filter
              (λ uid,
                 (if decide (uid ∈ user_id <$> clerk_users) then
                    if decide (uid ∈ clerk_user_id <$> db_users)
                    then "ok" else "NO DB DATA"
                  else "** ORPHANED DB DATA **") = status)
              (all_ids set_iter clerk_users db_users)).
Proof.
  unfold report_rows. rewrite filter_fmap, length_fmap. f_equal.
  apply list_filter_iff. intros uid. by rewrite report_row_status.
Qed.

Lemma length_identity_ids :
  NoDup (user_id <$> clerk_users) →
  length clerk_users
  = length (filter (λ uid, uid ∈ user_id <$> clerk_users)
              (all_ids set_iter clerk_users db_users)).
Proof.
  intros Hnd. rewrite <- (length_fmap user_id). apply Permutation_length.
  apply NoDup_Permutation; [done| |].
  - apply NoDup_filter. by apply all_ids_of_NoDup.
  - intros uid. rewrite list_elem_of_filter. unfold all_ids.
    rewrite (all_ids_of_elem _ set_iter_ok). tauto.
Qed.

Lemma length_database_ids :
  NoDup (clerk_user_id <$> db_users) →
  length db_users
  = length (filter (λ uid, uid ∈ clerk_user_id <$> db_users)
              (all_ids set_iter clerk_users db_users)).
Proof.
  intros Hnd. rewrite <- (length_fmap clerk_user_id). apply Permutation_length.
  apply NoDup_Permutation; [done| |].
  - apply NoDup_filter. by apply all_ids_of_NoDup.
  - intros uid. rewrite list_elem_of_filter. unfold all_ids.
    rewrite (all_ids_of_elem _ set_iter_ok). tauto.
Qed.
End Counts.

(** The numbers of the summary agree with the table: every row has one of
    the three statuses; when the ids of the identity users are distinct their
    number is the number of rows that are [ok] or [NO DB DATA]; when the ids
    of the database summaries are distinct their number is the number of rows
    that are [ok] or [** ORPHANED DB DATA **]; and these are then the two
    numbers that [main] prints under the table. *)
Theorem report_counts set_iter clerk_users db_users :
  set_iteration set_iter →
  let line :=
    (λ row : ReconciliationRow,
       PyStr.ljust 36 (row_uid row) +:+ " "
       +:+ PyStr.ljust 35 (row_email row) +:+ " "
       +:+ PyStr.rjust 5 (PyStr.str_int (row_trips row)) +:+ " "
       +:+ PyStr.rjust 5 (PyStr.str_int (row_items row)) +:+ " "
       +:+ PyStr.rjust 4 (PyStr.str_int (row_cats row)) +:+ " "
       +:+ PyStr.rjust 4 (PyStr.str_int (row_tmpls row)) +:+ "  "
       +:+ row_status row) in
  let rows := report_rows set_iter clerk_users db_users in
  let count status := length (filter (λ row, row_status row = status) rows) in
  length rows
  = (count "ok" + count "NO DB DATA" + count "** ORPHANED DB DATA **")%nat
  ∧ (NoDup (user_id <$> clerk_users) →
     length clerk_users = (count "ok" + count "NO DB DATA")%nat)
  ∧ (NoDup (clerk_user_id <$> db_users) →
     length db_users = (count "ok" + count "** ORPHANED DB DATA **")%nat)
  ∧ (NoDup (user_id <$> clerk_users) →
     NoDup (clerk_user_id <$> db_users) →
     ∃ summary,
       main set_iter clerk_users db_users []
       = (preamble
            ++ (line <$> rows)
            ++ [EmptyString;
                "Clerk users:  "
                +:+ PyStr.str_len (count "ok" + count "NO DB DATA");
                "DB users:     "
                +:+ PyStr.str_len (count "ok"
                                   + count "** ORPHANED DB DATA **")]
            ++ summary,
          Return tt)).
Proof.
  intros Hit line rows count.
  set (A := all_ids set_iter clerk_users db_users).
  set (P := λ uid : string, uid ∈ user_id <$> clerk_users).
  set (Q := λ uid : string, uid ∈ clerk_user_id <$> db_users).
  assert (count "ok" = length (filter (λ uid, P uid ∧ Q uid) A)) as Hok.
  { unfold count, rows. rewrite length_status_rows. f_equal.
    apply list_filter_iff. intros uid. unfold P, Q.
    repeat case_decide; split; try done; tauto. }
  assert (count "NO DB DATA" = length (filter (λ uid, P uid ∧ ¬ Q uid) A))
    as Hunused.
  { unfold count, rows. rewrite length_status_rows. f_equal.
    apply list_filter_iff. intros uid. unfold P, Q.
    repeat case_decide; split; try done; tauto. }
  assert (count "** ORPHANED DB DATA **" = length (filter (λ uid, ¬ P uid) A))
    as Horphaned.
  { unfold count, rows. rewrite length_status_rows. f_equal.
    apply list_filter_iff. intros uid. unfold P.
    repeat case_decide; split; try done; tauto. }
  assert (length rows = length A) as Hrows.
  { unfold rows. by rewrite <- (length_fmap row_uid), report_rows_uids. }
  assert (NoDup (user_id <$> clerk_users) →
          length clerk_users = (count "ok" + count "NO DB DATA")%nat) as Hc.
  { intros Hndc. rewrite (length_identity_ids set_iter Hit _ db_users Hndc).
    change (length (filter P A) = (count "ok" + count "NO DB DATA")%nat).
    by rewrite (length_filter_split P Q A), Hok, Hunused. }
  assert (NoDup (clerk_user_id <$> db_users) →
          length db_users
          = (count "ok" + count "** ORPHANED DB DATA **")%nat) as Hd.
  { intros Hndd. rewrite (length_database_ids set_iter Hit clerk_users _ Hndd).
    change (length (filter Q A)
            = (count "ok" + count "** ORPHANED DB DATA **")%nat).
    rewrite (length_filter_split Q P A), Hok, Horphaned.
    rewrite (list_filter_iff (λ uid, Q uid ∧ P uid) (λ uid, P uid ∧ Q uid))
      by (intros; tauto).
    rewrite (filter_iff_on (λ uid, Q uid ∧ ¬ P uid) (λ uid, ¬ P uid));
      [done|].
    intros uid Hin. apply (all_ids_of_elem _ Hit) in Hin. unfold P, Q. tauto. }
  split; [|split; [done|split; [done|]]].
  - rewrite Hrows, (length_filter_complement P A).
    rewrite (length_filter_split P Q A), Hok, Hunused, Horphaned. lia.
  - intros Hndc Hndd. rewrite <- (Hc Hndc), <- (Hd Hndd).
    by apply main_prints_table.
Qed.

Lemma report_counts_witness :
  let rows := report_rows elements sample_clerk_users sample_db_users in
  let count status := length (filter (λ row, row_status row = status) rows) in
  length rows
  = (count "ok" + count "NO DB DATA" + count "** ORPHANED DB DATA **")%nat
  ∧ length sample_clerk_users = (count "ok" + count "NO DB DATA")%nat
  ∧ length sample_db_users = (count "ok" + count "** ORPHANED DB DATA **")%nat
  ∧ ∃ summary,
      main elements sample_clerk_users sample_db_users []
      = (preamble
           ++ (row_line <$> rows)
           ++ [EmptyString;
               "Clerk users:  "
               +:+ PyStr.str_len (count "ok" + count "NO DB DATA");
               "DB users:     "
               +:+ PyStr.str_len (count "ok"
                                  + count "** ORPHANED DB DATA **")]
           ++ summary,
         Return tt).
Proof.
  intros rows count.
  assert (NoDup (user_id <$> sample_clerk_users)) as Hndc
    by (apply (bool_decide_unpack _); vm_compute; exact I).
  assert (NoDup (clerk_user_id <$> sample_db_users)) as Hndd
    by (apply (bool_decide_unpack _); vm_compute; exact I).
  destruct (report_counts elements sample_clerk_users sample_db_users)
    as (Hrows & Hc & Hd & Hmain).
  - intros X. reflexivity.
  - split; [exact Hrows|]. split; [exact (Hc Hndc)|].
    split; [exact (Hd Hndd)|]. exact (Hmain Hndc Hndd).
Defined.
(** ** Report: the line that says no orphaned data was found *)

Lemma orphaned_heading_not_all_clear n : orphaned_heading n ≠ no_orphaned_line.
Proof.
  unfold orphaned_heading, no_orphaned_line, newline.
  cbv [String.append]. discriminate.
Qed.

(** [main] prints the line that no orphaned data was found, directly after
    the counts, exactly when every id of the database summaries is the id of
    an identity user. *)
Theorem report_all_clear set_iter clerk_users db_users :
  set_iteration set_iter →
  (∃ tail,
     main set_iter clerk_users db_users []
     = (preamble
          ++ (row_line <$> report_rows set_iter clerk_users db_users)
          ++ count_lines clerk_users db_users
          ++ no_orphaned_line :: tail,
        Return tt))
  ↔ (∀ uid, uid ∈ clerk_user_id <$> db_users → uid ∈ user_id <$> clerk_users).
Proof.
  intros Hit.
  destruct (main_run set_iter Hit clerk_users db_users [])
    as (orphaned_lines & unused_lines & Hrun & _).
  cbv zeta in Hrun. rewrite app_nil_l in Hrun. rewrite Hrun. clear Hrun.
  set (A := all_ids set_iter clerk_users db_users).
  destruct (filter (λ uid, uid ∉ user_id <$> clerk_users) A)
    as [|orphan orphans] eqn:Horphaned.
  - split.
    + intros _ uid Hdb. destruct (decide (uid ∈ user_id <$> clerk_users))
        as [|Hnot]; [done|].
      assert (uid ∈ filter (λ uid, uid ∉ user_id <$> clerk_users) A) as Hin.
      { apply list_elem_of_filter. split; [done|].
        apply (all_ids_of_elem _ Hit). by right. }
      rewrite Horphaned in Hin. by apply elem_of_nil in Hin.
    + intros _. by eexists.
  - split.
    + intros [tail Htail]. exfalso.
      apply (f_equal fst) in Htail. cbn [fst] in Htail.
      do 3 apply app_inv_head in Htail.
      apply (f_equal head) in Htail. cbn [head app] in Htail.
      apply (inj Some) in Htail.
      by apply orphaned_heading_not_all_clear in Htail.
    + intros Hsub. exfalso.
      assert (orphan ∈ filter (λ uid, uid ∉ user_id <$> clerk_users) A)
        as [Hnot Hin]%list_elem_of_filter by (rewrite Horphaned; by left).
      apply (all_ids_of_elem _ Hit) in Hin as [Hin|Hin]; [done|].
      by apply Hnot, Hsub.
Qed.

Lemma report_all_clear_witness :
  (∃ tail,
     main elements sample_clerk_users sample_db_users []
     = (preamble
          ++ (row_line <$> report_rows elements sample_clerk_users
                             sample_db_users)
          ++ count_lines sample_clerk_users sample_db_users
          ++ no_orphaned_line :: tail,
        Return tt))
  ↔ (∀ uid, uid ∈ clerk_user_id <$> sample_db_users →
            uid ∈ user_id <$> sample_clerk_users).
Proof.
  apply (report_all_clear elements sample_clerk_users sample_db_users).
  intros X. reflexivity.
Defined.

(** ** Report: the columns of the table *)

Lemma length_append s t :
  String.length (s +:+ t) = (String.length s + String.length t)%nat.
Proof. induction s as [|c s IH]; [done|]. simpl. by rewrite IH. Qed.

Lemma length_spaces n : String.length (PyStr.spaces n) = n.
Proof.
  unfold PyStr.spaces. induction n as [|n IH]; [done|]. simpl. by rewrite IH.
Qed.

Lemma length_ljust w s :
  String.length (PyStr.ljust w s) = (String.length s `max` w)%nat.
Proof. unfold PyStr.ljust. rewrite length_append, length_spaces. lia. Qed.

Lemma length_rjust w s :
  String.length (PyStr.rjust w s) = (String.length s `max` w)%nat.
Proof. unfold PyStr.rjust. rewrite length_append, length_spaces. lia. Qed.

(** The width of a row and where its status begins: a field narrower than
    its column is padded to the width of the column and a wider one is printed
    in full and moves what follows to the right; when every field fits, the
    status begins at column 96, where the heading has [STATUS]. *)
Theorem row_line_columns r :
  ∃ columns,
    row_line r = columns +:+ row_status r
    ∧ String.length columns
      = ((String.length (row_uid r) `max` 36)
         + (String.length (row_email r) `max` 35)
         + (String.length (PyStr.str_int (row_trips r)) `max` 5)
         + (String.length (PyStr.str_int (row_items r)) `max` 5)
         + (String.length (PyStr.str_int (row_cats r)) `max` 4)
         + (String.length (PyStr.str_int (row_tmpls r)) `max` 4) + 7)%nat
    ∧ (∃ heading, table_header = heading +:+ "STATUS"
                  ∧ String.length heading = 96%nat)
    ∧ ((String.length (row_uid r) ≤ 36)%nat →
       (String.length (row_email r) ≤ 35)%nat →
       (String.length (PyStr.str_int (row_trips r)) ≤ 5)%nat →
       (String.length (PyStr.str_int (row_items r)) ≤ 5)%nat →
       (String.length (PyStr.str_int (row_cats r)) ≤ 4)%nat →
       (String.length (PyStr.str_int (row_tmpls r)) ≤ 4)%nat →
       String.length columns = 96%nat).
Proof.
  exists (PyStr.ljust 36 (row_uid r) +:+ " "
          +:+ PyStr.ljust 35 (row_email r) +:+ " "
          +:+ PyStr.rjust 5 (PyStr.str_int (row_trips r)) +:+ " "
          +:+ PyStr.rjust 5 (PyStr.str_int (row_items r)) +:+ " "
          +:+ PyStr.rjust 4 (PyStr.str_int (row_cats r)) +:+ " "
          +:+ PyStr.rjust 4 (PyStr.str_int (row_tmpls r)) +:+ "  ").
  assert (String.length
            (PyStr.ljust 36 (row_uid r) +:+ " "
             +:+ PyStr.ljust 35 (row_email r) +:+ " "
             +:+ PyStr.rjust 5 (PyStr.str_int (row_trips r)) +:+ " "
             +:+ PyStr.rjust 5 (PyStr.str_int (row_items r)) +:+ " "
             +:+ PyStr.rjust 4 (PyStr.str_int (row_cats r)) +:+ " "
             +:+ PyStr.rjust 4 (PyStr.str_int (row_tmpls r)) +:+ "  ")
          = ((String.length (row_uid r) `max` 36)
             + (String.length (row_email r) `max` 35)
             + (String.length (PyStr.str_int (row_trips r)) `max` 5)
             + (String.length (PyStr.str_int (row_items r)) `max` 5)
             + (String.length (PyStr.str_int (row_cats r)) `max` 4)
             + (String.length (PyStr.str_int (row_tmpls r)) `max` 4) + 7)%nat)
    as Hlen.
  { rewrite !length_append, !length_ljust, !length_rjust. simpl. lia. }
  split; [|split; [done|split]].
  - unfold row_line. by rewrite !append_assoc.
  - exists (PyStr.ljust 36 "USER_ID" +:+ " " +:+ PyStr.ljust 35 "EMAIL"
            +:+ " " +:+ PyStr.rjust 5 "TRIPS" +:+ " " +:+ PyStr.rjust 5 "ITEMS"
            +:+ " " +:+ PyStr.rjust 4 "CATS" +:+ " " +:+ PyStr.rjust 4 "TMPL"
            +:+ "  ").
    split; reflexivity.
  - intros. rewrite Hlen. lia.
Qed.

Lemma row_line_columns_witness :
  ∃ columns,
    row_line sample_row = columns +:+ row_status sample_row
    ∧ String.length columns = 96%nat.
Proof.
  destruct (row_line_columns sample_row) as (columns & Hline & _ & _ & Hfit).
  exists columns. split; [exact Hline|].
  apply Hfit; vm_compute; lia.
Defined.
